(** * TensorDataContainer: the nested-literal tensor builder

    A shallow embedding of
    [torch/csrc/api/src/detail/TensorDataContainer.cpp] and the
    verification of its specification.

    Layout of the development:
    - the element kinds, scalars and errors of c10;
    - the tensor runtime (ATen) as a small recording backend;
    - the container, its constructors, accessors, [convert_to_tensor],
      [fill_tensor] and [pretty_print_recursive];
    - the theorems. *)

From Stdlib Require Import ZArith SpecFloat.
From stdpp Require Import base tactics option list numbers strings pretty.

Open Scope Z_scope.

(** ** c10: element kinds, devices, scalars *)

(** The kinds enumerated by [AT_FORALL_SCALAR_TYPES_AND3(Bool, Half, BFloat16, _)],
    named as the [at::k##S] constants the source uses, and
    [at::ScalarType::Undefined]. *)
Inductive ScalarType : Set :=
| kByte | kChar | kShort | kInt | kLong | kFloat | kDouble
| kBool | kHalf | kBFloat16
| Undefined.

#[global] Instance ScalarType_eq_dec : EqDecision ScalarType.
Proof. solve_decision. Defined.

Inductive Device : Set := kCPU | kCUDA.

#[global] Instance Device_eq_dec : EqDecision Device.
Proof. solve_decision. Defined.

(** [c10::Scalar]: a tagged payload.  Integral kinds are stored widened to
    [int64_t], floating kinds widened to [double], [bool] as itself.  A
    floating value is an IEEE-754 datum ([spec_float]); widening a half, a
    bfloat16 or a float to double is exact, so the datum is kept as it is. *)
Inductive c10_Scalar : Set :=
| HAS_d (v : spec_float)
| HAS_i (v : Z)
| HAS_b (v : bool).

(** The C++ type [T] paired with the kind [S] by the [TENSOR(T, S)] macro.
    No constructor is generated for [Undefined]. *)
Definition cpp_type (S : ScalarType) : Set :=
  match S with
  | kByte | kChar | kShort | kInt | kLong => Z
  | kFloat | kDouble | kHalf | kBFloat16 => spec_float
  | kBool => bool
  | Undefined => Empty_set
  end.

(** The implicit conversion [T -> c10::Scalar] performed by [scalar_(value)]. *)
Definition to_Scalar {S : ScalarType} : cpp_type S -> c10_Scalar :=
  match S with
  | kByte | kChar | kShort | kInt | kLong => HAS_i
  | kFloat | kDouble | kHalf | kBFloat16 => HAS_d
  | kBool => HAS_b
  | Undefined => fun v => match v with end
  end.

(** ** Errors and outcomes *)

(** What a failed check throws.  The two [TORCH_CHECK]s of the list
    constructor carry the values their messages print (the expected and the
    offending sizes, resp. kinds); the accessors' [TORCH_CHECK]s and the
    [TORCH_INTERNAL_ASSERT]s carry their message.  The messages of the list
    constructor also print the two sub-lists; that text is left out (on
    containers built by the constructors below, printing returns). *)
Inductive c10_Error : Type :=
| ShapeMismatch (expected got : list Z)
| KindMismatch (expected got : ScalarType)
| Misuse (msg : string)
| InternalAssert (msg : string)
| NotImplemented (name : string) (S : ScalarType)
| BackendError (msg : string).

(** A call returns, throws, or has no defined behaviour (a read past the
    end of an array). *)
Inductive outcome (A : Type) : Type :=
| Ok (a : A)
| Throw (e : c10_Error)
| UndefinedBehavior.

Arguments Ok {A} a.
Arguments Throw {A} e.
Arguments UndefinedBehavior {A}.

#[global] Instance outcome_ret : MRet outcome := fun A a => Ok a.
#[global] Instance outcome_bind : MBind outcome := fun A B f m =>
  match m with
  | Ok a => f a
  | Throw e => Throw e
  | UndefinedBehavior => UndefinedBehavior
  end.

(** [TORCH_CHECK(cond, ...)] and [TORCH_INTERNAL_ASSERT(cond, ...)]. *)
Definition TORCH_CHECK (cond : bool) (e : c10_Error) : outcome unit :=
  if cond then Ok () else Throw e.

Definition TORCH_INTERNAL_ASSERT (cond : bool) (msg : string) : outcome unit :=
  if cond then Ok () else Throw (InternalAssert msg).

(** ** ATen: tensors *)

(** [at::TensorOptions], with [device()] and [dtype()] already resolved to
    their defaults when unset. *)
Record TensorOptions : Set := mkTensorOptions {
  opt_device : Device;
  opt_dtype : ScalarType;
  opt_is_variable : bool }.

(** [at::TensorOptions()]: CPU, the default dtype, not a variable. *)
Definition TensorOptions_default : TensorOptions :=
  mkTensorOptions kCPU kFloat false.

(** [options.device(d)] and [options.is_variable(b)] return updated copies. *)
Definition TensorOptions_device (o : TensorOptions) (d : Device) : TensorOptions :=
  mkTensorOptions d (opt_dtype o) (opt_is_variable o).

Definition TensorOptions_is_variable (o : TensorOptions) (b : bool) : TensorOptions :=
  mkTensorOptions (opt_device o) (opt_dtype o) b.

(** A defined tensor is a view into a storage of the backend: the storage's
    number, the offset of the view's first cell, and the view's sizes (the
    views met here are contiguous, row-major). *)
Record TensorImpl : Set := mkTensorImpl {
  t_storage : nat;
  t_offset : nat;
  t_sizes : list Z;
  t_dtype : ScalarType;
  t_device : Device;
  t_is_variable : bool }.

(** [at::Tensor] is a handle that may be undefined (the default-constructed
    [tensor_] member of a container that is not of [Tensor] type). *)
Definition at_Tensor : Set := option TensorImpl.

(** ** The container *)

(** [enum class TensorDataContainerType { Scalar, InitList, Tensor }]. *)
Module TensorDataContainerType.
Inductive t : Set := Scalar | InitList | Tensor.
#[global] Instance eq_dec : EqDecision t.
Proof. solve_decision. Defined.
End TensorDataContainerType.

(** The members of [struct TensorDataContainer].  [init_list_] is the
    sequence the caller's brace list holds; the size of an in-memory array
    of containers is far below [2^63], so the [size_t] to [int64_t]
    conversions of its length are value preserving and lengths are read in
    [Z] directly. *)
#[local] Unset Elimination Schemes.
Inductive TensorDataContainer : Type := mkTensorDataContainer {
  sizes_ : list Z;
  scalar_type_ : ScalarType;
  type_ : TensorDataContainerType.t;
  scalar_ : c10_Scalar;
  init_list_ : list TensorDataContainer;
  tensor_ : at_Tensor }.
#[local] Set Elimination Schemes.

(** Members without an initializer are default-constructed:
    [c10::Scalar()] is the integer zero, [std::initializer_list] is empty,
    [at::Tensor] is undefined. *)
Definition Scalar_default : c10_Scalar := HAS_i 0.

(** [const std::vector<int64_t>& sizes() const] *)
Definition sizes (c : TensorDataContainer) : list Z := sizes_ c.

(** [const c10::ScalarType& scalar_type() const] *)
Definition scalar_type (c : TensorDataContainer) : ScalarType := scalar_type_ c.

(** [TensorDataContainer::TensorDataContainer()] *)
Definition TensorDataContainer_default : TensorDataContainer :=
  mkTensorDataContainer [0] Undefined TensorDataContainerType.InitList
    Scalar_default [] None.

(** [TensorDataContainer::TensorDataContainer(T value)], one per [(T, S)]. *)
Definition TensorDataContainer_value (S : ScalarType) (value : cpp_type S)
  : TensorDataContainer :=
  mkTensorDataContainer [] S TensorDataContainerType.Scalar
    (to_Scalar value) [] None.

(** The loop of the list constructor: for every element, first the sizes
    check, then the scalar type check. *)
Fixpoint check_sub_lists (first_elem : TensorDataContainer)
    (elems : list TensorDataContainer) : outcome unit :=
  match elems with
  | [] => Ok ()
  | elem :: rest =>
      TORCH_CHECK (bool_decide (sizes elem = sizes first_elem))
        (ShapeMismatch (sizes first_elem) (sizes elem));;
      TORCH_CHECK (bool_decide (scalar_type elem = scalar_type first_elem))
        (KindMismatch (scalar_type first_elem) (scalar_type elem));;
      check_sub_lists first_elem rest
  end.

(** [TensorDataContainer::TensorDataContainer(std::initializer_list<TensorDataContainer>)].
    The member initializer reads [init_list.begin()->scalar_type()] before
    anything else: on an empty list that is a read past the end. *)
Definition TensorDataContainer_init_list (init_list : list TensorDataContainer)
  : outcome TensorDataContainer :=
  match init_list with
  | [] => UndefinedBehavior
  | first_elem :: _ =>
      check_sub_lists first_elem init_list;;
      Ok (mkTensorDataContainer
            (Z.of_nat (length init_list) :: sizes first_elem)
            (scalar_type first_elem)
            TensorDataContainerType.InitList
            Scalar_default init_list None)
  end.

(** [bool is_scalar() const] etc. *)
Definition is_scalar (c : TensorDataContainer) : bool :=
  bool_decide (type_ c = TensorDataContainerType.Scalar).

Definition is_init_list (c : TensorDataContainer) : bool :=
  bool_decide (type_ c = TensorDataContainerType.InitList).

Definition is_tensor (c : TensorDataContainer) : bool :=
  bool_decide (type_ c = TensorDataContainerType.Tensor).

(** [const c10::Scalar& scalar() const] *)
Definition scalar (c : TensorDataContainer) : outcome c10_Scalar :=
  TORCH_CHECK (is_scalar c)
    (Misuse "Can only call `scalar()` on a TensorDataContainer that has `is_scalar() == true`");;
  Ok (scalar_ c).

(** [const std::initializer_list<TensorDataContainer>& init_list() const] *)
Definition init_list (c : TensorDataContainer) : outcome (list TensorDataContainer) :=
  TORCH_CHECK (is_init_list c)
    (Misuse "Can only call `init_list()` on a TensorDataContainer that has `is_init_list() == true`");;
  Ok (init_list_ c).

(** [const at::Tensor& tensor() const] *)
Definition tensor (c : TensorDataContainer) : outcome at_Tensor :=
  TORCH_CHECK (is_tensor c)
    (Misuse "Can only call `tensor()` on a TensorDataContainer that has `is_tensor() == true`");;
  Ok (tensor_ c).

(** ** ATen: the backend, with a call log

    The tensor runtime is not part of the file under study.  It is modelled
    as a state holding the storages, the two thread-local modes, and a log
    of the calls made to it, each stamped with the modes in force (a
    "spying backend"). *)

Inductive Call : Set :=
| scalar_tensor_call   (* at::scalar_tensor *)
| empty_call           (* at::empty *)
| tensor_call          (* at::native::tensor *)
| fill_call            (* Tensor::fill_ *)
| index_call           (* Tensor::operator[] *)
| to_call.             (* Tensor::to *)

#[global] Instance Call_eq_dec : EqDecision Call.
Proof. solve_decision. Defined.

(** [ev_device] is the device the call works on: the options' device for a
    factory, the tensor's device for a write or a sub-view, the target
    device for a transfer. *)
Record Event : Set := mkEvent {
  ev_call : Call;
  ev_device : Device;
  ev_non_variable_type_mode : bool;
  ev_grad_mode : bool }.

(** A cell of a storage is uninitialized or holds the scalar written to it
    (to be read at the dtype of the tensor looking at it). *)
Record Backend : Type := mkBackend {
  heap : list (list (option c10_Scalar));
  non_variable_type_mode : bool;
  grad_mode : bool;
  calls : list Event }.

(** The state of a fresh thread: no storage, both modes at their defaults
    (gradient recording on, variable dispatch on), nothing logged. *)
Definition Backend_initial : Backend := mkBackend [] false true [].

(** Stateful code: a state in, a state and an outcome out.  The state is
    kept when the call throws, as a C++ exception leaves the heap and the
    thread-local modes in place. *)
Definition StateOutcome (St A : Type) : Type := St -> St * outcome A.

#[global] Instance StateOutcome_ret St : MRet (StateOutcome St) :=
  fun A a st => (st, Ok a).
#[global] Instance StateOutcome_bind St : MBind (StateOutcome St) :=
  fun A B f m st =>
    match m st with
    | (st', Ok a) => f a st'
    | (st', Throw e) => (st', Throw e)
    | (st', UndefinedBehavior) => (st', UndefinedBehavior)
    end.

Definition lift {St A} (o : outcome A) : StateOutcome St A := fun st => (st, o).

Abbreviation M := (StateOutcome Backend).

Definition record (c : Call) (d : Device) : M unit := fun st =>
  (mkBackend (heap st) (non_variable_type_mode st) (grad_mode st)
     (calls st ++ [mkEvent c d (non_variable_type_mode st) (grad_mode st)]),
   Ok ()).

Definition alloc (cells : list (option c10_Scalar)) : M nat := fun st =>
  (mkBackend (heap st ++ [cells]) (non_variable_type_mode st) (grad_mode st)
     (calls st),
   Ok (length (heap st))).

Definition read_storage (id : nat) : M (list (option c10_Scalar)) := fun st =>
  (st, Ok (default [] (heap st !! id))).

Definition update_storage (id : nat)
    (f : list (option c10_Scalar) -> list (option c10_Scalar)) : M unit :=
  fun st =>
    (mkBackend (alter f id (heap st)) (non_variable_type_mode st)
       (grad_mode st) (calls st),
     Ok ()).

Definition set_non_variable_type_mode (st : Backend) (b : bool) : Backend :=
  mkBackend (heap st) b (grad_mode st) (calls st).

Definition set_grad_mode (st : Backend) (b : bool) : Backend :=
  mkBackend (heap st) (non_variable_type_mode st) b (calls st).

(** [at::AutoNonVariableTypeMode guard(enabled)] over the statements of its
    scope: the previous value is saved, and restored by the destructor when
    the scope is left, by a return or by an exception. *)
Definition AutoNonVariableTypeMode {A} (enabled : bool) (scope : M A) : M A :=
  fun st =>
    let prev := non_variable_type_mode st in
    let '(st', r) := scope (set_non_variable_type_mode st enabled) in
    (set_non_variable_type_mode st' prev, r).

(** [at::NoGradGuard guard], that is [AutoGradMode(false)], likewise. *)
Definition NoGradGuard {A} (scope : M A) : M A :=
  fun st =>
    let prev := grad_mode st in
    let '(st', r) := scope (set_grad_mode st false) in
    (set_grad_mode st' prev, r).

(** Number of cells of a dense tensor of the given sizes. *)
Definition numel (szs : list Z) : nat := Z.to_nat (foldr Z.mul 1 szs).

Definition undefined_tensor {A} (what : string) : outcome A :=
  Throw (BackendError what).

(** Modelled from the spec: [make_scalar_tensor(scalar, opts)], the 0-rank
    tensor factory ([at::scalar_tensor], missing from the sources at hand). *)
Definition at_scalar_tensor (s : c10_Scalar) (o : TensorOptions) : M at_Tensor :=
  record scalar_tensor_call (opt_device o);;
  id ← alloc [Some s];
  mret (Some (mkTensorImpl id 0 [] (opt_dtype o) (opt_device o) (opt_is_variable o))).

(** Modelled from the spec: [empty(shape, opts)], an uninitialized dense
    tensor ([at::empty], missing from the sources at hand). *)
Definition at_empty (szs : list Z) (o : TensorOptions) : M at_Tensor :=
  record empty_call (opt_device o);;
  id ← alloc (replicate (numel szs) None);
  mret (Some (mkTensorImpl id 0 szs (opt_dtype o) (opt_device o) (opt_is_variable o))).

(** Modelled from the spec: [make_flat_tensor(values, opts)], a 1-D dense
    tensor from a contiguous typed sequence ([at::native::tensor], missing
    from the sources at hand). *)
Definition at_native_tensor (values : list c10_Scalar) (o : TensorOptions)
  : M at_Tensor :=
  record tensor_call (opt_device o);;
  id ← alloc (Some <$> values);
  mret (Some (mkTensorImpl id 0 [Z.of_nat (length values)]
                (opt_dtype o) (opt_device o) (opt_is_variable o))).

Definition fill_cells (off n : nat) (s : c10_Scalar)
    (cells : list (option c10_Scalar)) : list (option c10_Scalar) :=
  foldr (fun i acc => <[i := Some s]> acc) cells (seq off n).

(** Modelled from the spec: [fill_inplace(tensor, scalar)], write a single
    scalar into every cell of the view ([Tensor::fill_], missing from the
    sources at hand). *)
Definition Tensor_fill_ (t : at_Tensor) (s : c10_Scalar) : M unit :=
  match t with
  | None => lift (undefined_tensor "fill_")
  | Some ti =>
      record fill_call (t_device ti);;
      update_storage (t_storage ti)
        (fill_cells (t_offset ti) (numel (t_sizes ti)) s)
  end.

(** Modelled from the spec: [index(tensor, i)], the sub-view along axis 0, a
    mutable alias of the same storage ([Tensor::operator[]], missing from
    the sources at hand).  It throws on a 0-rank tensor and on an index out
    of range.  [Tensor_select] computes the view, [Tensor_index] is the
    logged call. *)
Definition Tensor_select (t : at_Tensor) (i : nat) : outcome TensorImpl :=
  match t with
  | None => undefined_tensor "operator[]"
  | Some ti =>
      match t_sizes ti with
      | [] => Throw (BackendError "invalid index of a 0-dim tensor")
      | n :: rest =>
          if bool_decide (Z.of_nat i < n) then
            Ok (mkTensorImpl (t_storage ti)
                  (t_offset ti + i * numel rest) rest
                  (t_dtype ti) (t_device ti) (t_is_variable ti))
          else Throw (BackendError "index out of range")
      end
  end.

Definition Tensor_index (t : at_Tensor) (i : nat) : M at_Tensor :=
  sub ← lift (Tensor_select t i);
  record index_call (t_device sub);;
  mret (Some sub).

(** Modelled from the spec: reading the single cell of a one-element view
    ([Tensor::item], missing from the sources at hand).  An uninitialized
    cell has no defined value.  The cell is returned as it was written: the
    conversion to the dtype of the tensor and to the type read is not
    modelled, and no statement below is about the value of an item. *)
Definition Tensor_item (st : Backend) (t : at_Tensor) : outcome c10_Scalar :=
  match t with
  | None => undefined_tensor "item"
  | Some ti =>
      if bool_decide (numel (t_sizes ti) = 1%nat) then
        match heap st !! t_storage ti ≫= (.!! t_offset ti) with
        | Some (Some s) => Ok s
        | _ => UndefinedBehavior
        end
      else Throw (BackendError "only one element tensors can be converted to Scalar")
  end.

(** Modelled from the spec: [transfer(tensor, device)], a bulk copy, the
    identity when device and dtype already match ([Tensor::to], missing
    from the sources at hand).  The copy keeps the cells as they were
    written: the conversion of the values that a change of dtype performs
    is not modelled, and no statement below is about cells after a change
    of dtype. *)
Definition Tensor_to (t : at_Tensor) (d : Device) (dtype : ScalarType)
  : M at_Tensor :=
  match t with
  | None => lift (undefined_tensor "to")
  | Some ti =>
      record to_call d;;
      if bool_decide (t_device ti = d) && bool_decide (t_dtype ti = dtype)
      then mret (Some ti)
      else
        cells ← read_storage (t_storage ti);
        id ← alloc (take (numel (t_sizes ti)) (drop (t_offset ti) cells));
        mret (Some (mkTensorImpl id 0 (t_sizes ti) dtype d (t_is_variable ti)))
  end.

(** [tensor.to(device)] keeps the dtype; [tensor.to(options)] takes device
    and dtype from the options. *)
Definition Tensor_to_device (t : at_Tensor) (d : Device) : M at_Tensor :=
  match t with
  | None => lift (undefined_tensor "to")
  | Some ti => Tensor_to t d (t_dtype ti)
  end.

Definition Tensor_to_options (t : at_Tensor) (o : TensorOptions) : M at_Tensor :=
  Tensor_to t (opt_device o) (opt_dtype o).

(** [tensor.dim()] and [tensor.sizes()] (they throw on an undefined tensor). *)
Definition Tensor_sizes (t : at_Tensor) : outcome (list Z) :=
  match t with
  | None => undefined_tensor "sizes"
  | Some ti => Ok (t_sizes ti)
  end.

Definition Tensor_dim (t : at_Tensor) : outcome Z :=
  szs ← Tensor_sizes t; Ok (Z.of_nat (length szs)).

(** [sizes()[0]]: [ArrayRef::operator[]] is unchecked. *)
Definition Tensor_size0 (t : at_Tensor) : outcome Z :=
  szs ← Tensor_sizes t;
  match szs with
  | [] => UndefinedBehavior
  | n :: _ => Ok n
  end.

(** ** The container: construction from a flat sequence *)

(** [TensorDataContainer::TensorDataContainer(at::ArrayRef<T> values)], one
    per [(T, S)].  The guard lives to the end of the constructor body, whose
    only statement is the call of [at::native::tensor]. *)
Definition TensorDataContainer_ArrayRef (S : ScalarType)
    (values : list (cpp_type S)) : M TensorDataContainer :=
  t ← AutoNonVariableTypeMode true
        (at_native_tensor (to_Scalar <$> values)
           (TensorOptions_is_variable (TensorOptions_device TensorOptions_default kCPU) false));
  mret (mkTensorDataContainer [Z.of_nat (length values)] S
          TensorDataContainerType.Tensor Scalar_default [] t).

(** [TensorDataContainer::TensorDataContainer(const std::vector<T>& values)]
    delegates to the [ArrayRef] constructor (the macro list leaves out
    [Bool]). *)
Definition TensorDataContainer_vector (S : ScalarType)
    (values : list (cpp_type S)) : M TensorDataContainer :=
  TensorDataContainer_ArrayRef S values.

(** ** The container: materialization *)

(** [void TensorDataContainer::fill_tensor(at::Tensor tensor) const] *)
Fixpoint fill_tensor (c : TensorDataContainer) (tensor : at_Tensor)
    {struct c} : M unit :=
  match c with
  | mkTensorDataContainer _ _ ty scalar_v init_list_v _ =>
      if bool_decide (ty = TensorDataContainerType.Scalar) then
        d ← lift (Tensor_dim tensor);
        lift (TORCH_INTERNAL_ASSERT (bool_decide (d = 0))
                "Expected a 0-dim Tensor, but got Tensor with dimensions: ");;
        NoGradGuard (Tensor_fill_ tensor scalar_v)
      else if bool_decide (ty = TensorDataContainerType.InitList) then
        n ← lift (Tensor_size0 tensor);
        lift (TORCH_INTERNAL_ASSERT
                (bool_decide (n = Z.of_nat (length init_list_v)))
                "Expected a Tensor with size ... in its first dimension");;
        (fix loop (elems : list TensorDataContainer) (index : nat) : M unit :=
           match elems with
           | [] => mret ()
           | elem :: rest =>
               sub ← Tensor_index tensor index;
               fill_tensor elem sub;;
               loop rest (S index)
           end) init_list_v 0%nat
      else if bool_decide (ty = TensorDataContainerType.Tensor) then
        lift (TORCH_INTERNAL_ASSERT false
                "TensorDataContainer is already a Tensor type, `fill_tensor` should not be called")
      else
        lift (TORCH_INTERNAL_ASSERT false "Invalid TensorDataContainer type")
  end.

(** The [for (const auto& elem : init_list_)] loop of [fill_tensor], named. *)
Fixpoint fill_elems (tensor : at_Tensor) (elems : list TensorDataContainer)
    (index : nat) : M unit :=
  match elems with
  | [] => mret ()
  | elem :: rest =>
      sub ← Tensor_index tensor index;
      fill_tensor elem sub;;
      fill_elems tensor rest (S index)
  end.

(** [at::Tensor TensorDataContainer::convert_to_tensor(const at::TensorOptions& options) const] *)
Definition convert_to_tensor (c : TensorDataContainer) (options : TensorOptions)
  : M at_Tensor :=
  if is_scalar c then
    AutoNonVariableTypeMode true
      (at_scalar_tensor (scalar_ c) (TensorOptions_is_variable options false))
  else if is_init_list c then
    tensor ← AutoNonVariableTypeMode true
               (at_empty (sizes_ c)
                  (TensorOptions_is_variable (TensorOptions_device options kCPU) false));
    fill_tensor c tensor;;
    Tensor_to_device tensor (opt_device options)
  else if is_tensor c then
    Tensor_to_options (tensor_ c) options
  else
    (* the assertion throws; no return statement follows it *)
    lift (TORCH_INTERNAL_ASSERT false "Invalid TensorDataContainer type");;
    lift UndefinedBehavior.

(** ** The container: pretty-printing *)

(** A [std::ostream] is the text written to it so far. *)
Definition ostream : Set := string.

Definition put (text : string) : StateOutcome ostream unit :=
  fun stream => (stream +:+ text, Ok ()).

Section Printing.

(** [format ty s] is the text that [stream << s.to<T>()] writes, [T] the
    C++ type of kind [ty] ([float] for [kBFloat16], through
    [static_cast<float>]); the checked conversion [to<T>] may throw.  The
    number formatting of the standard library is a parameter. *)
Variable format : ScalarType -> c10_Scalar -> outcome string.

(** The [BFloat16] special case followed by
    [AT_DISPATCH_ALL_TYPES_AND2(at::kBool, at::kHalf, ty, name, ...)]: the
    value is read inside the selected branch; a kind outside the list
    throws before anything is read. *)
Definition print_as (name : string) (ty : ScalarType)
    (read : outcome c10_Scalar) : StateOutcome ostream unit :=
  if bool_decide (ty = kBFloat16) then
    v ← lift read; text ← lift (format kBFloat16 v); put text
  else
    match ty with
    | kByte | kChar | kDouble | kFloat | kInt | kLong | kShort
    | kBool | kHalf =>
        v ← lift read; text ← lift (format ty v); put text
    | _ => lift (Throw (NotImplemented name ty))
    end.

(** The loop [for (int64_t i = 0; i < tensor_.sizes()[0]; i++)] of the
    [Tensor] branch, [n] iterations left, at index [i]. *)
Fixpoint print_items (st : Backend) (ty : ScalarType) (t : at_Tensor)
    (n i : nat) : StateOutcome ostream unit :=
  match n with
  | O => mret ()
  | S n' =>
      print_as "TensorDataContainer_pretty_print_tensor_item" ty
        (sub ← Tensor_select t i; Tensor_item st (Some sub));;
      print_items st ty t n' (S i)
  end.

(** [void TensorDataContainer::pretty_print_recursive(std::ostream& stream) const].
    The backend state is read, not changed; [stream << *it] is
    [operator<<], which calls back into this function. *)
Fixpoint pretty_print_recursive (st : Backend) (c : TensorDataContainer)
    {struct c} : StateOutcome ostream unit :=
  match c with
  | mkTensorDataContainer _ kind ty scalar_v init_list_v tensor_v =>
      if bool_decide (ty = TensorDataContainerType.Scalar) then
        print_as "TensorDataContainer_pretty_print_scalar" kind (Ok scalar_v)
      else if bool_decide (ty = TensorDataContainerType.InitList) then
        put "{";;
        (fix loop (it : list TensorDataContainer) : StateOutcome ostream unit :=
           match it with
           | [] => mret ()
           | elem :: rest =>
               pretty_print_recursive st elem;;
               match rest with [] => mret () | _ :: _ => put ", " end;;
               loop rest
           end) init_list_v;;
        put "}"
      else if bool_decide (ty = TensorDataContainerType.Tensor) then
        put "{";;
        n ← lift (Tensor_size0 tensor_v);
        print_items st kind tensor_v (Z.to_nat n) 0%nat;;
        put "}"
      else
        lift (TORCH_INTERNAL_ASSERT false "Invalid TensorDataContainer type")
  end.

(** The iterator loop of the [InitList] branch, named. *)
Fixpoint print_elems (st : Backend) (it : list TensorDataContainer)
    : StateOutcome ostream unit :=
  match it with
  | [] => mret ()
  | elem :: rest =>
      pretty_print_recursive st elem;;
      match rest with [] => mret () | _ :: _ => put ", " end;;
      print_elems st rest
  end.

End Printing.

(** ** Properties of containers used by the statements *)

(** Structural induction through the children. *)
Section TensorDataContainer_induction.
Variable P : TensorDataContainer -> Prop.
Hypothesis step : forall szs kind ty s children t,
  Forall P children ->
  P (mkTensorDataContainer szs kind ty s children t).

Fixpoint TensorDataContainer_ind (c : TensorDataContainer) : P c :=
  match c with
  | mkTensorDataContainer szs kind ty s children t =>
      step szs kind ty s children t
        ((fix all (l : list TensorDataContainer) : Forall P l :=
            match l with
            | [] => @List.Forall_nil _ P
            | x :: r => @List.Forall_cons _ P x r (TensorDataContainer_ind x) (all r)
            end) children)
  end.
End TensorDataContainer_induction.

(** A child agrees with the first child on sizes and on scalar type. *)
Definition agrees (first_elem elem : TensorDataContainer) : Prop :=
  sizes elem = sizes first_elem /\ scalar_type elem = scalar_type first_elem.

(** Well-formed containers: the shape attribute of each variant as the data
    model gives it, and rectangular brace lists (invariants I1 and I2). *)
Fixpoint well_formed (c : TensorDataContainer) : bool :=
  match c with
  | mkTensorDataContainer szs _ ty _ children t =>
      match ty with
      | TensorDataContainerType.Scalar => bool_decide (szs = [])
      | TensorDataContainerType.InitList =>
          match children with
          | [] => bool_decide (szs = [0])
          | first_elem :: _ =>
              bool_decide (szs = Z.of_nat (length children) :: sizes first_elem)
              && forallb (fun elem =>
                   bool_decide (sizes elem = sizes first_elem)
                   && bool_decide (scalar_type elem = scalar_type first_elem)
                   && well_formed elem) children
          end
      | TensorDataContainerType.Tensor =>
          match t with
          | Some ti => bool_decide (t_sizes ti = szs)
          | None => false
          end
      end
  end.

(** A brace literal: scalars and brace lists all the way down, no container
    of [Tensor] type inside. *)
Fixpoint brace_literal (c : TensorDataContainer) : bool :=
  match c with
  | mkTensorDataContainer _ _ ty _ children _ =>
      match ty with
      | TensorDataContainerType.Scalar => true
      | TensorDataContainerType.InitList => forallb brace_literal children
      | TensorDataContainerType.Tensor => false
      end
  end.

(** ** Properties of runs used by the statements *)

(** [st'] extends [st]: both modes are as they were, and the calls logged in
    between all satisfy [P]. *)
Definition extends (P : Event -> Prop) (st st' : Backend) : Prop :=
  non_variable_type_mode st' = non_variable_type_mode st
  /\ grad_mode st' = grad_mode st
  /\ exists new, calls st' = calls st ++ new /\ Forall P new.

(** Every run of [m], returning or throwing, extends its initial state with
    calls satisfying [P], which may mention the modes the caller had. *)
Definition logs {A} (P : bool -> bool -> Event -> Prop) (m : M A) : Prop :=
  forall st, extends (P (non_variable_type_mode st) (grad_mode st)) st (m st).1.

(** What [fill_tensor] is allowed to log against a tensor on device [d]:
    sub-view indexing under the caller's modes, and writes with gradient
    recording off, all on [d]. *)
Definition fill_event (d : Device) (nv g : bool) (e : Event) : Prop :=
  ev_device e = d
  /\ ev_non_variable_type_mode e = nv
  /\ ((ev_call e = index_call /\ ev_grad_mode e = g)
      \/ (ev_call e = fill_call /\ ev_grad_mode e = false)).

(** The modes under which the container code makes each backend call: the
    three factories inside [AutoNonVariableTypeMode], the leaf write inside
    [NoGradGuard], indexing and [to] under the modes of the caller. *)
Definition core_event (nv g : bool) (e : Event) : Prop :=
  match ev_call e with
  | scalar_tensor_call | empty_call | tensor_call =>
      ev_non_variable_type_mode e = true /\ ev_grad_mode e = g
  | fill_call =>
      ev_non_variable_type_mode e = nv /\ ev_grad_mode e = false
  | index_call | to_call =>
      ev_non_variable_type_mode e = nv /\ ev_grad_mode e = g
  end.

Definition device_of (t : at_Tensor) : Device :=
  match t with
  | Some ti => t_device ti
  | None => kCPU
  end.

(** ** Properties of the printer used by the statements *)

(** Printing [c] appends exactly [text] and returns. *)
Definition renders (format : ScalarType -> c10_Scalar -> outcome string)
    (st : Backend) (c : TensorDataContainer) (text : string) : Prop :=
  forall stream,
    pretty_print_recursive format st c stream = (stream +:+ text, Ok ()).

(** Printing item [i] of the flat tensor of [c] appends exactly [text]. *)
Definition item_renders (format : ScalarType -> c10_Scalar -> outcome string)
    (st : Backend) (c : TensorDataContainer) (i : nat) (text : string) : Prop :=
  forall stream,
    print_as format "TensorDataContainer_pretty_print_tensor_item"
      (scalar_type_ c)
      (sub ← Tensor_select (tensor_ c) i; Tensor_item st (Some sub)) stream
    = (stream +:+ text, Ok ()).

(** The specification's renderings: the parts separated by a comma and a
    space, resp. adjacent, between braces. *)
Definition comma_separated (texts : list string) : string :=
  "{" +:+ String.concat ", " texts +:+ "}".

Definition adjacent (texts : list string) : string :=
  "{" +:+ String.concat "" texts +:+ "}".

(** ** Example containers *)

(** The literals [n] (an [int]) and [1.0f] (a [float], [2^23 * 2^-23]). *)
Definition literal_int (n : Z) : TensorDataContainer :=
  TensorDataContainer_value kInt n.

Definition literal_one_float : TensorDataContainer :=
  TensorDataContainer_value kFloat (S754_finite false 8388608 (-23)).

(** The container a brace list evaluates to, when its construction returns
    (the default container stands in otherwise). *)
Definition braces (children : list TensorDataContainer) : TensorDataContainer :=
  match TensorDataContainer_init_list children with
  | Ok c => c
  | _ => TensorDataContainer_default
  end.

(** [int] values held as a flat sequence, e.g. a [std::vector<int>]. *)
Definition flat_ints (values : list Z) : M TensorDataContainer :=
  TensorDataContainer_vector kInt values.

(** A brace list of two flat sequences, materialized:
    [TensorDataContainer{v, v}.convert_to_tensor(options)] with
    [std::vector<int> v{1, 2}]; each element of the list is converted to a
    container of its own. *)
Definition materialize_braces_of_flat (options : TensorOptions) : M at_Tensor :=
  v1 ← flat_ints [1; 2];
  v2 ← flat_ints [1; 2];
  c ← lift (TensorDataContainer_init_list [v1; v2]);
  convert_to_tensor c options.

Definition options_on (d : Device) : TensorOptions := mkTensorOptions d kInt false.

(** Number of calls of one backend function in a log. *)
Definition count_calls (c : Call) (log : list Event) : nat :=
  length (filter (fun e => ev_call e = c) log).

(** The value a run returned, [d] standing in when it did not return. *)
Definition returned {A} (d : A) (run : Backend * outcome A) : A :=
  match run.2 with
  | Ok a => a
  | _ => d
  end.

(** The flat sequence [{true, false, true}], built on a fresh thread. *)
Definition flat_bools_run : Backend * outcome TensorDataContainer :=
  TensorDataContainer_ArrayRef kBool [true; false; true] Backend_initial.

(** A formatter for the integral kinds and [bool], as [operator<<] prints
    them by default: decimal digits for [short], [int] and [int64_t], [1]
    and [0] for [bool], and the character of that code for [int8_t] and
    [uint8_t].  Floating-point formatting is left out. *)
Definition format_integers (ty : ScalarType) (s : c10_Scalar) : outcome string :=
  match s with
  | HAS_d _ => Throw (BackendError "no floating-point formatter")
  | HAS_i _ | HAS_b _ =>
      let z := match s with
               | HAS_i z => z
               | HAS_b b => if b then 1 else 0
               | HAS_d _ => 0
               end in
      match ty with
      | kShort | kInt | kLong => Ok (pretty z)
      | kBool => Ok (if bool_decide (z = 0) then "0" else "1")
      | kByte | kChar =>
          Ok (String (Ascii.ascii_of_N (Z.to_N (z `mod` 256))) "")
      | _ => Throw (BackendError "no floating-point formatter")
      end
  end.

(** ** Leaves, contents and renderings *)

(** The scalars of a container in the order of the literal (depth first,
    left to right); a container of [Tensor] type keeps its values in the
    backend and has none here. *)
Fixpoint leaves (c : TensorDataContainer) : list c10_Scalar :=
  match c with
  | mkTensorDataContainer _ _ ty s children _ =>
      match ty with
      | TensorDataContainerType.Scalar => [s]
      | TensorDataContainerType.InitList => flat_map leaves children
      | TensorDataContainerType.Tensor => []
      end
  end.

(** The scalar types of the containers of [Scalar] and of [Tensor] type
    found in a container, in the same order. *)
Fixpoint leaf_kinds (c : TensorDataContainer) : list ScalarType :=
  match c with
  | mkTensorDataContainer _ kind ty _ children _ =>
      match ty with
      | TensorDataContainerType.Scalar => [kind]
      | TensorDataContainerType.InitList => flat_map leaf_kinds children
      | TensorDataContainerType.Tensor => [kind]
      end
  end.

(** All leaves of [c] have the scalar type [c] reports. *)
Definition kind_uniform (c : TensorDataContainer) : Prop :=
  Forall (fun kind => kind = scalar_type c) (leaf_kinds c).

(** The cells a tensor looks at, in row-major order. *)
Definition tensor_cells (st : Backend) (t : at_Tensor) : list (option c10_Scalar) :=
  match t with
  | None => []
  | Some ti =>
      take (numel (t_sizes ti))
        (drop (t_offset ti) (default [] (heap st !! t_storage ti)))
  end.

(** The state [st'] differs from [st] at most in the storage [sid]. *)
Definition same_outside (sid : nat) (st st' : Backend) : Prop :=
  length (heap st') = length (heap st)
  /\ forall j, j <> sid -> heap st' !! j = heap st !! j.

(** The rendering of a brace literal, computed from the literal alone:
    a scalar as its formatter prints it, a brace list as its children's
    renderings separated by a comma and a space between braces.  No
    rendering for a scalar of kind [Undefined], for a scalar the formatter
    rejects, or for a container of [Tensor] type (its items are in the
    backend). *)
Fixpoint rendering (format : ScalarType -> c10_Scalar -> outcome string)
    (c : TensorDataContainer) : option string :=
  match c with
  | mkTensorDataContainer _ kind ty s children _ =>
      match ty with
      | TensorDataContainerType.Scalar =>
          if bool_decide (kind = Undefined) then None
          else match format kind s with Ok text => Some text | _ => None end
      | TensorDataContainerType.InitList =>
          comma_separated <$>
            (fix all (l : list TensorDataContainer) : option (list string) :=
               match l with
               | [] => Some []
               | elem :: rest =>
                   match rendering format elem, all rest with
                   | Some text, Some texts => Some (text :: texts)
                   | _, _ => None
                   end
               end) children
      | TensorDataContainerType.Tensor => None
      end
  end.

(** The renderings of a list of containers, named. *)
Fixpoint renderings (format : ScalarType -> c10_Scalar -> outcome string)
    (l : list TensorDataContainer) : option (list string) :=
  match l with
  | [] => Some []
  | elem :: rest =>
      match rendering format elem, renderings format rest with
      | Some text, Some texts => Some (text :: texts)
      | _, _ => None
      end
  end.

(** The literal [{{1, 2}, {3, 4}}]. *)
Definition two_by_two : TensorDataContainer :=
  braces [braces [literal_int 1; literal_int 2];
          braces [literal_int 3; literal_int 4]].

(** ** Scenarios of the specification, evaluated *)

(** S1: a scalar literal has no sizes and the kind of its C++ type. *)
Example scenario_scalar :
  sizes (literal_int 7) = [] /\ scalar_type (literal_int 7) = kInt.
Proof. done. Qed.

(** S2: the literal [{{1, 2}, {3, 4}}] has sizes [[2; 2]]; materialized, its
    storage holds the four values in row-major order. *)
Example scenario_nested :
  let c := braces [braces [literal_int 1; literal_int 2];
                   braces [literal_int 3; literal_int 4]] in
  sizes c = [2; 2] /\ scalar_type c = kInt
  /\ heap (convert_to_tensor c (options_on kCPU) Backend_initial).1
     = [[Some (HAS_i 1); Some (HAS_i 2); Some (HAS_i 3); Some (HAS_i 4)]].
Proof. repeat split. Qed.

(** S3: sub-lists of sizes [[1]] and [[2]] are rejected. *)
Example scenario_ragged :
  TensorDataContainer_init_list
    [braces [literal_int 1]; braces [literal_int 1; literal_int 2]]
  = Throw (ShapeMismatch [1] [2]).
Proof. reflexivity. Qed.

(** S4: an [int] next to a [float] is rejected. *)
Example scenario_mixed_kinds :
  TensorDataContainer_init_list [literal_int 1; literal_one_float]
  = Throw (KindMismatch kInt kFloat).
Proof. reflexivity. Qed.

(** S5: a flat sequence of three [bool]s has sizes [[3]] and kind [kBool]. *)
Example scenario_flat :
  let c := returned TensorDataContainer_default flat_bools_run in
  is_tensor c = true /\ sizes c = [3] /\ scalar_type c = kBool.
Proof. repeat split. Qed.

(** ** The list constructor *)

Lemma agrees_refl c : agrees c c.
Proof. by split. Qed.

Lemma check_sub_lists_cons_agree first_elem elem rest :
  agrees first_elem elem ->
  check_sub_lists first_elem (elem :: rest) = check_sub_lists first_elem rest.
Proof.
  intros [Hs Hk]. simpl.
  by rewrite !bool_decide_eq_true_2.
Qed.

Lemma check_sub_lists_cons_sizes first_elem elem rest :
  sizes elem <> sizes first_elem ->
  check_sub_lists first_elem (elem :: rest)
  = Throw (ShapeMismatch (sizes first_elem) (sizes elem)).
Proof.
  intros Hs. simpl. by rewrite (bool_decide_eq_false_2 _ Hs).
Qed.

Lemma check_sub_lists_cons_kind first_elem elem rest :
  sizes elem = sizes first_elem ->
  scalar_type elem <> scalar_type first_elem ->
  check_sub_lists first_elem (elem :: rest)
  = Throw (KindMismatch (scalar_type first_elem) (scalar_type elem)).
Proof.
  intros Hs Hk. simpl.
  by rewrite (bool_decide_eq_true_2 _ Hs), (bool_decide_eq_false_2 _ Hk).
Qed.

Lemma check_sub_lists_app first_elem pre elems :
  Forall (agrees first_elem) pre ->
  check_sub_lists first_elem (pre ++ elems) = check_sub_lists first_elem elems.
Proof.
  induction 1 as [|elem pre Helem _ IH]; [done|].
  rewrite <- app_comm_cons, check_sub_lists_cons_agree by done.
  exact IH.
Qed.

Lemma check_sub_lists_all first_elem elems :
  Forall (agrees first_elem) elems -> check_sub_lists first_elem elems = Ok ().
Proof.
  intros H. rewrite <- (app_nil_r elems).
  by rewrite check_sub_lists_app.
Qed.

Lemma check_sub_lists_Ok_inv first_elem elems :
  check_sub_lists first_elem elems = Ok () -> Forall (agrees first_elem) elems.
Proof.
  induction elems as [|elem rest IH]; [constructor|].
  simpl. unfold TORCH_CHECK.
  destruct (decide (sizes elem = sizes first_elem)) as [Hs|Hs];
    [rewrite (bool_decide_eq_true_2 _ Hs)
    |rewrite (bool_decide_eq_false_2 _ Hs); discriminate].
  destruct (decide (scalar_type elem = scalar_type first_elem)) as [Hk|Hk];
    [rewrite (bool_decide_eq_true_2 _ Hk)
    |rewrite (bool_decide_eq_false_2 _ Hk); discriminate].
  simpl. intros H. constructor; [by split | by apply IH].
Qed.

Lemma init_list_unfold first_elem rest :
  TensorDataContainer_init_list (first_elem :: rest) =
  (check_sub_lists first_elem (first_elem :: rest);;
   Ok (mkTensorDataContainer
         (Z.of_nat (length (first_elem :: rest)) :: sizes first_elem)
         (scalar_type first_elem) TensorDataContainerType.InitList
         Scalar_default (first_elem :: rest) None)).
Proof. reflexivity. Qed.

(** C1.  A non-empty brace list whose children all have the sizes and the
    scalar type of the first child is accepted; the container built is of
    [InitList] type, its sizes are the number of children followed by the
    first child's sizes, its scalar type is the first child's, and it holds
    the children. *)
Theorem init_list_accepts_rectangular first_elem rest :
  Forall (agrees first_elem) (first_elem :: rest) ->
  exists c,
    TensorDataContainer_init_list (first_elem :: rest) = Ok c
    /\ is_init_list c = true
    /\ sizes c = Z.of_nat (length (first_elem :: rest)) :: sizes first_elem
    /\ scalar_type c = scalar_type first_elem
    /\ init_list_ c = first_elem :: rest.
Proof.
  intros Hall. eexists. rewrite init_list_unfold.
  rewrite (check_sub_lists_all _ _ Hall). simpl.
  repeat split.
Qed.

Lemma init_list_accepts_rectangular_witness :
  exists c,
    TensorDataContainer_init_list [literal_int 1; literal_int 2] = Ok c
    /\ is_init_list c = true
    /\ sizes c = [2]
    /\ scalar_type c = kInt
    /\ init_list_ c = [literal_int 1; literal_int 2].
Proof.
  apply (init_list_accepts_rectangular (literal_int 1) [literal_int 2]).
  repeat constructor.
Defined.

(** C2, as stated, fails: in the list [{1, {1.0f}}] the second child differs
    from the first in scalar type, yet the constructor throws the sizes
    error, because the sizes check of a child comes before its scalar type
    check. *)
Lemma kind_mismatch_reported_as_shape_mismatch :
  TensorDataContainer_init_list [literal_one_float] = Ok (braces [literal_one_float])
  /\ scalar_type (braces [literal_one_float]) <> scalar_type (literal_int 1)
  /\ TensorDataContainer_init_list [literal_int 1; braces [literal_one_float]]
     = Throw (ShapeMismatch [] [1]).
Proof. split; [reflexivity|]. split; [discriminate | reflexivity]. Qed.

(** C2, amended.  For a non-empty brace list: the constructor returns if and
    only if every child agrees with the first on sizes and on scalar type;
    otherwise the first child, in order, that disagrees decides the error:
    the sizes error if its sizes differ, the scalar type error if its sizes
    agree and its scalar type differs. *)
Theorem init_list_first_offender_decides first_elem rest :
  let children := first_elem :: rest in
  (Forall (agrees first_elem) children
   <-> exists c, TensorDataContainer_init_list children = Ok c)
  /\ (forall pre elem post,
        children = pre ++ elem :: post ->
        Forall (agrees first_elem) pre ->
        sizes elem <> sizes first_elem ->
        TensorDataContainer_init_list children
        = Throw (ShapeMismatch (sizes first_elem) (sizes elem)))
  /\ (forall pre elem post,
        children = pre ++ elem :: post ->
        Forall (agrees first_elem) pre ->
        sizes elem = sizes first_elem ->
        scalar_type elem <> scalar_type first_elem ->
        TensorDataContainer_init_list children
        = Throw (KindMismatch (scalar_type first_elem) (scalar_type elem))).
Proof.
  intros children. subst children. repeat split.
  - intros Hall. rewrite init_list_unfold, (check_sub_lists_all _ _ Hall).
    by eexists.
  - intros [c Hc]. rewrite init_list_unfold in Hc.
    apply check_sub_lists_Ok_inv.
    destruct (check_sub_lists first_elem (first_elem :: rest)) as [[]| |];
      [done | discriminate | discriminate].
  - intros pre elem post Heq Hpre Hs.
    rewrite init_list_unfold, Heq, check_sub_lists_app by done.
    by rewrite check_sub_lists_cons_sizes.
  - intros pre elem post Heq Hpre Hs Hk.
    rewrite init_list_unfold, Heq, check_sub_lists_app by done.
    by rewrite check_sub_lists_cons_kind.
Qed.

Lemma init_list_first_offender_decides_witness :
  (exists c, TensorDataContainer_init_list [literal_int 1; literal_int 2] = Ok c)
  /\ TensorDataContainer_init_list
       [braces [literal_int 1]; braces [literal_int 1; literal_int 2]]
     = Throw (ShapeMismatch [1] [2])
  /\ TensorDataContainer_init_list
       [literal_int 1; literal_one_float; braces [literal_int 1]]
     = Throw (KindMismatch kInt kFloat).
Proof.
  split; [|split].
  - apply (proj1 (init_list_first_offender_decides (literal_int 1)
                    [literal_int 2])).
    repeat constructor.
  - apply (proj1 (proj2 (init_list_first_offender_decides
                           (braces [literal_int 1])
                           [braces [literal_int 1; literal_int 2]]))
             [braces [literal_int 1]] (braces [literal_int 1; literal_int 2]) []).
    + reflexivity.
    + repeat constructor.
    + discriminate.
  - apply (proj2 (proj2 (init_list_first_offender_decides (literal_int 1)
                           [literal_one_float; braces [literal_int 1]]))
             [literal_int 1] literal_one_float [braces [literal_int 1]]).
    + reflexivity.
    + repeat constructor.
    + reflexivity.
    + discriminate.
Defined.

(** C3.  The default-constructed container is of [InitList] type, with sizes
    [[0]], scalar type [Undefined] and no children.  The list constructor
    does not build it from an empty list: its member initializer reads the
    scalar type of a first child before anything else (line 26), with no
    test for emptiness, so on an empty list the read is past the end and no
    container is returned.  (The empty brace literal [{}] never gets there:
    it selects the default constructor.) *)
Theorem empty_list_is_left_to_the_default_constructor :
  (is_init_list TensorDataContainer_default = true
   /\ sizes TensorDataContainer_default = [0]
   /\ scalar_type TensorDataContainer_default = Undefined
   /\ init_list_ TensorDataContainer_default = [])
  /\ TensorDataContainer_init_list [] = UndefinedBehavior.
Proof. by repeat split. Qed.

(** ** The accessors *)

Lemma type_cases c :
  (is_scalar c = true /\ is_init_list c = false /\ is_tensor c = false)
  \/ (is_scalar c = false /\ is_init_list c = true /\ is_tensor c = false)
  \/ (is_scalar c = false /\ is_init_list c = false /\ is_tensor c = true).
Proof.
  unfold is_scalar, is_init_list, is_tensor.
  destruct (type_ c); auto.
Qed.

(** C7.  Each accessor returns its member on a container of its own type,
    and otherwise throws the usage error of its [TORCH_CHECK]; exactly one
    of the three type predicates holds.  The accessors are [const] member
    functions, embedded as functions of the container that return no new
    container: the container is the same after the call, returning or
    throwing. *)
Theorem accessors_check_the_variant c :
  (is_scalar c = true -> scalar c = Ok (scalar_ c))
  /\ (is_scalar c = false -> exists msg, scalar c = Throw (Misuse msg))
  /\ (is_init_list c = true -> init_list c = Ok (init_list_ c))
  /\ (is_init_list c = false -> exists msg, init_list c = Throw (Misuse msg))
  /\ (is_tensor c = true -> tensor c = Ok (tensor_ c))
  /\ (is_tensor c = false -> exists msg, tensor c = Throw (Misuse msg))
  /\ (is_scalar c = false <-> is_init_list c = true \/ is_tensor c = true).
Proof.
  unfold scalar, init_list, tensor.
  repeat split; try (intros ->; simpl; eauto).
  - destruct (type_cases c) as [H|[H|H]]; intros; intuition congruence.
  - destruct (type_cases c) as [H|[H|H]]; intros; intuition congruence.
Qed.

Lemma accessors_check_the_variant_witness :
  scalar (literal_int 7) = Ok (HAS_i 7)
  /\ exists msg, init_list (literal_int 7) = Throw (Misuse msg).
Proof.
  split.
  - apply (proj1 (accessors_check_the_variant (literal_int 7))). reflexivity.
  - apply (proj1 (proj2 (proj2 (proj2 (accessors_check_the_variant (literal_int 7)))))).
    reflexivity.
Defined.

(** ** The scalar constructor *)

Lemma to_Scalar_inj S (v w : cpp_type S) : to_Scalar v = to_Scalar w -> v = w.
Proof. destruct S; simpl in *; try congruence. destruct v. Qed.

(** C10.  For every kind [S] of the macro list and every value [v] of its
    C++ type, the container built from [v] is of [Scalar] type, with no
    sizes and scalar type [S], and [scalar()] returns the [c10::Scalar]
    holding [v]; two values read back the same only if they are equal. *)
Theorem scalar_round_trip (S : ScalarType) (v : cpp_type S) :
  is_scalar (TensorDataContainer_value S v) = true
  /\ scalar (TensorDataContainer_value S v) = Ok (to_Scalar v)
  /\ scalar_type (TensorDataContainer_value S v) = S
  /\ sizes (TensorDataContainer_value S v) = []
  /\ (forall w : cpp_type S,
        scalar (TensorDataContainer_value S w) = scalar (TensorDataContainer_value S v) ->
        w = v).
Proof.
  repeat split.
  intros w H. apply to_Scalar_inj.
  unfold scalar in H. simpl in H. congruence.
Qed.

Lemma scalar_round_trip_witness :
  scalar (TensorDataContainer_value kInt 7) = Ok (HAS_i 7)
  /\ (7 : cpp_type kInt) = 7.
Proof.
  split.
  - apply (proj1 (proj2 (scalar_round_trip kInt 7))).
  - apply (proj2 (proj2 (proj2 (proj2 (scalar_round_trip kInt 7)))) 7).
    reflexivity.
Defined.

(** ** Reasoning about runs *)

Lemma bind_run {St A B} (m : StateOutcome St A) (f : A -> StateOutcome St B) st :
  (m ≫= f) st =
  match m st with
  | (st1, Ok a) => f a st1
  | (st1, Throw e) => (st1, Throw e)
  | (st1, UndefinedBehavior) => (st1, UndefinedBehavior)
  end.
Proof. reflexivity. Qed.

Lemma extends_refl P st : extends P st st.
Proof.
  repeat split. exists []. by rewrite app_nil_r.
Qed.

Lemma extends_trans P st1 st2 st3 :
  extends P st1 st2 -> extends P st2 st3 -> extends P st1 st3.
Proof.
  intros (Hn1 & Hg1 & new1 & Hc1 & HP1) (Hn2 & Hg2 & new2 & Hc2 & HP2).
  split; [congruence|]. split; [congruence|].
  exists (new1 ++ new2). split.
  - by rewrite Hc2, Hc1, app_assoc.
  - by apply Forall_app.
Qed.

Lemma extends_mono (P Q : Event -> Prop) st st' :
  (forall e, P e -> Q e) -> extends P st st' -> extends Q st st'.
Proof.
  intros HPQ (Hn & Hg & new & Hc & HP).
  repeat split; [done..|]. exists new. split; [done|].
  eapply Forall_impl; eauto.
Qed.

Lemma logs_ext {A} P (m m' : M A) :
  (forall st, m st = m' st) -> logs P m' -> logs P m.
Proof. intros Heq H st. rewrite Heq. apply H. Qed.

Lemma logs_mono {A} (P Q : bool -> bool -> Event -> Prop) (m : M A) :
  (forall nv g e, P nv g e -> Q nv g e) -> logs P m -> logs Q m.
Proof.
  intros HPQ H st. eapply extends_mono; [apply HPQ | apply H].
Qed.

Lemma logs_ret {A} P (a : A) : logs P (mret a : M A).
Proof. intros st. apply extends_refl. Qed.

Lemma logs_lift {A} P (o : outcome A) : logs P (lift o : M A).
Proof. intros st. apply extends_refl. Qed.

(** The rule of sequencing, with what is known of the value passed on. *)
Lemma logs_bind_with {A B} P (R : A -> Prop) (m : M A) (f : A -> M B) :
  logs P m ->
  (forall st st' a, m st = (st', Ok a) -> R a) ->
  (forall a, R a -> logs P (f a)) ->
  logs P (m ≫= f).
Proof.
  intros Hm HR Hf st. rewrite bind_run.
  pose proof (Hm st) as H1.
  destruct (m st) as [st1 [a| |]] eqn:Hrun; simpl in H1; [|done..].
  pose proof (Hf a (HR _ _ _ Hrun) st1) as H2.
  destruct H1 as (Hn & Hg & Hnew). rewrite Hn, Hg in H2.
  eapply extends_trans; [|exact H2]. by repeat split.
Qed.

Lemma logs_bind {A B} P (m : M A) (f : A -> M B) :
  logs P m -> (forall a, logs P (f a)) -> logs P (m ≫= f).
Proof.
  intros Hm Hf. apply (logs_bind_with P (fun _ => True)); auto.
Qed.

Lemma logs_record (P : bool -> bool -> Event -> Prop) c d :
  (forall nv g, P nv g (mkEvent c d nv g)) -> logs P (record c d).
Proof.
  intros HP st. repeat split.
  eexists. split; [reflexivity|]. by repeat constructor.
Qed.

Lemma logs_alloc P cells : logs P (alloc cells).
Proof.
  intros st. repeat split. exists []. by rewrite app_nil_r.
Qed.

Lemma logs_read_storage P id : logs P (read_storage id).
Proof. intros st. apply extends_refl. Qed.

Lemma logs_update_storage P id f : logs P (update_storage id f).
Proof.
  intros st. repeat split. exists []. by rewrite app_nil_r.
Qed.

(** Inside the scope of a guard the mode is the guard's; outside it is the
    caller's again. *)
Lemma logs_AutoNonVariableTypeMode {A}
    (P Q : bool -> bool -> Event -> Prop) enabled (scope : M A) :
  (forall nv g e, Q enabled g e -> P nv g e) ->
  logs Q scope -> logs P (AutoNonVariableTypeMode enabled scope).
Proof.
  intros HQP Hscope st. unfold AutoNonVariableTypeMode.
  pose proof (Hscope (set_non_variable_type_mode st enabled)) as Hrun.
  destruct (scope _) as [st1 r1].
  destruct Hrun as (Hn & Hg & new & Hc & Hnew).
  simpl in *. repeat split; [done|].
  exists new. split; [done|].
  eapply Forall_impl; [exact Hnew|]. intros e. apply HQP.
Qed.

Lemma logs_NoGradGuard {A}
    (P Q : bool -> bool -> Event -> Prop) (scope : M A) :
  (forall nv g e, Q nv false e -> P nv g e) ->
  logs Q scope -> logs P (NoGradGuard scope).
Proof.
  intros HQP Hscope st. unfold NoGradGuard.
  pose proof (Hscope (set_grad_mode st false)) as Hrun.
  destruct (scope _) as [st1 r1].
  destruct Hrun as (Hn & Hg & new & Hc & Hnew).
  simpl in *. repeat split; [done|].
  exists new. split; [done|].
  eapply Forall_impl; [exact Hnew|]. intros e. apply HQP.
Qed.

(** The backend calls log themselves, once. *)
Lemma logs_at_scalar_tensor (P : bool -> bool -> Event -> Prop) s o :
  (forall nv g, P nv g (mkEvent scalar_tensor_call (opt_device o) nv g)) ->
  logs P (at_scalar_tensor s o).
Proof.
  intros HP. unfold at_scalar_tensor.
  apply logs_bind; [by apply logs_record|]. intros _.
  apply logs_bind; [apply logs_alloc|]. intros id. apply logs_ret.
Qed.

Lemma logs_at_empty (P : bool -> bool -> Event -> Prop) szs o :
  (forall nv g, P nv g (mkEvent empty_call (opt_device o) nv g)) ->
  logs P (at_empty szs o).
Proof.
  intros HP. unfold at_empty.
  apply logs_bind; [by apply logs_record|]. intros _.
  apply logs_bind; [apply logs_alloc|]. intros id. apply logs_ret.
Qed.

Lemma logs_at_native_tensor (P : bool -> bool -> Event -> Prop) values o :
  (forall nv g, P nv g (mkEvent tensor_call (opt_device o) nv g)) ->
  logs P (at_native_tensor values o).
Proof.
  intros HP. unfold at_native_tensor.
  apply logs_bind; [by apply logs_record|]. intros _.
  apply logs_bind; [apply logs_alloc|]. intros id. apply logs_ret.
Qed.

Lemma logs_Tensor_fill_ (P : bool -> bool -> Event -> Prop) t s :
  (forall nv g, P nv g (mkEvent fill_call (device_of t) nv g)) ->
  logs P (Tensor_fill_ t s).
Proof.
  intros HP. destruct t as [ti|]; simpl; [|apply logs_lift].
  apply logs_bind; [by apply logs_record|]. intros _.
  apply logs_update_storage.
Qed.

Lemma Tensor_select_device t i sub :
  Tensor_select t i = Ok sub -> t_device sub = device_of t.
Proof.
  destruct t as [ti|]; simpl; [|done].
  destruct (t_sizes ti) as [|n rest]; [done|].
  case_bool_decide; [|done]. by intros [= <-].
Qed.

Lemma logs_Tensor_index (P : bool -> bool -> Event -> Prop) t i :
  (forall nv g, P nv g (mkEvent index_call (device_of t) nv g)) ->
  logs P (Tensor_index t i).
Proof.
  intros HP. unfold Tensor_index.
  apply (logs_bind_with P (fun sub => t_device sub = device_of t)).
  - apply logs_lift.
  - intros st st' sub [= _ H]. by apply Tensor_select_device in H.
  - intros sub ->.
    apply logs_bind; [by apply logs_record|]. intros _. apply logs_ret.
Qed.

Lemma logs_Tensor_to (P : bool -> bool -> Event -> Prop) t d dtype :
  (forall nv g, P nv g (mkEvent to_call d nv g)) ->
  logs P (Tensor_to t d dtype).
Proof.
  intros HP. destruct t as [ti|]; simpl; [|apply logs_lift].
  apply logs_bind; [by apply logs_record|]. intros _.
  destruct (_ && _); [apply logs_ret|].
  apply logs_bind; [apply logs_read_storage|]. intros cells.
  apply logs_bind; [apply logs_alloc|]. intros id. apply logs_ret.
Qed.

(** ** [fill_tensor] *)

Lemma fill_tensor_scalar c tensor :
  is_scalar c = true ->
  fill_tensor c tensor =
  (d ← lift (Tensor_dim tensor);
   lift (TORCH_INTERNAL_ASSERT (bool_decide (d = 0))
           "Expected a 0-dim Tensor, but got Tensor with dimensions: ");;
   NoGradGuard (Tensor_fill_ tensor (scalar_ c))).
Proof.
  destruct c as [szs kind ty s children t]. unfold is_scalar. simpl.
  by intros ->.
Qed.

Lemma fill_tensor_init_list c tensor st :
  is_init_list c = true ->
  fill_tensor c tensor st =
  (n ← lift (Tensor_size0 tensor);
   lift (TORCH_INTERNAL_ASSERT
           (bool_decide (n = Z.of_nat (length (init_list_ c))))
           "Expected a Tensor with size ... in its first dimension");;
   fill_elems tensor (init_list_ c) 0%nat) st.
Proof.
  destruct c as [szs kind ty s children t]. unfold is_init_list. simpl.
  intros Hty. apply bool_decide_eq_true_1 in Hty. subst ty. simpl.
  rewrite !bind_run.
  destruct (lift (Tensor_size0 tensor) st) as [st1 [n| |]]; [|done..].
  rewrite !bind_run.
  destruct (lift _ st1) as [st2 [[]| |]]; [|done..].
  generalize 0%nat. revert st2.
  induction children as [|elem rest IH]; intros st2 index; [done|].
  simpl. rewrite !bind_run.
  destruct (Tensor_index tensor index st2) as [st3 [sub| |]]; [|done..].
  rewrite !bind_run.
  destruct (fill_tensor elem sub st3) as [st4 [[]| |]]; [|done..].
  apply IH.
Qed.

Lemma fill_tensor_tensor c tensor :
  is_tensor c = true ->
  fill_tensor c tensor =
  lift (TORCH_INTERNAL_ASSERT false
          "TensorDataContainer is already a Tensor type, `fill_tensor` should not be called").
Proof.
  destruct c as [szs kind ty s children t]. unfold is_tensor. simpl.
  intros Hty. apply bool_decide_eq_true_1 in Hty. by subst ty.
Qed.

Lemma fill_event_index d nv g : fill_event d nv g (mkEvent index_call d nv g).
Proof. unfold fill_event. simpl. auto. Qed.

Lemma logs_fill_elems tensor elems :
  Forall (fun elem => forall t,
            logs (fill_event (device_of t)) (fill_tensor elem t)) elems ->
  forall index, logs (fill_event (device_of tensor)) (fill_elems tensor elems index).
Proof.
  induction 1 as [|elem rest Helem _ IH]; intros index; simpl.
  - apply logs_ret.
  - apply (logs_bind_with _ (fun sub => device_of sub = device_of tensor)).
    + apply logs_Tensor_index. intros. apply fill_event_index.
    + intros st st' sub. unfold Tensor_index. rewrite bind_run. simpl.
      destruct (Tensor_select tensor index) as [s| |] eqn:Hsel; [|done..].
      intros [= _ <-]. simpl. by eapply Tensor_select_device.
    + intros sub Hdev. apply logs_bind; [|intros _; apply IH].
      rewrite <- Hdev. apply Helem.
Qed.

(** Whatever the container and the tensor, [fill_tensor] logs only sub-view
    indexing and writes, all on the device of the tensor it was given, and
    leaves the modes as the caller had them. *)
Lemma logs_fill_tensor c :
  forall t, logs (fill_event (device_of t)) (fill_tensor c t).
Proof.
  induction c as [szs kind ty s children t0 IH] using TensorDataContainer_ind.
  intros t. set (c := mkTensorDataContainer szs kind ty s children t0).
  destruct (type_cases c) as [(H & _)|[(_ & H & _)|(_ & _ & H)]].
  - rewrite (fill_tensor_scalar c t H).
    apply logs_bind; [apply logs_lift|]. intros d.
    apply logs_bind; [apply logs_lift|]. intros _.
    apply (logs_NoGradGuard _ (fun nv g e =>
             e = mkEvent fill_call (device_of t) nv g)).
    + intros nv g e ->. unfold fill_event. simpl. auto.
    + by apply logs_Tensor_fill_.
  - eapply logs_ext; [intros st; by apply fill_tensor_init_list|].
    apply logs_bind; [apply logs_lift|]. intros n.
    apply logs_bind; [apply logs_lift|]. intros _.
    by apply logs_fill_elems.
  - rewrite (fill_tensor_tensor c t H). apply logs_lift.
Qed.

(** On a well-formed brace literal, [fill_tensor] returns when given a
    tensor of the literal's sizes. *)
Lemma fill_elems_returns ti n tail elems :
  t_sizes ti = Z.of_nat n :: tail ->
  Forall (fun elem =>
            sizes elem = tail
            /\ forall ti' st, t_sizes ti' = sizes elem ->
                 exists st', fill_tensor elem (Some ti') st = (st', Ok ())) elems ->
  forall index st, (index + length elems <= n)%nat ->
    exists st', fill_elems (Some ti) elems index st = (st', Ok ()).
Proof.
  intros Hsz. induction 1 as [|elem rest [Htail Helem] _ IH];
    intros index st Hlen; simpl in *.
  - by eexists.
  - rewrite bind_run. unfold Tensor_index. rewrite bind_run. simpl.
    rewrite Hsz. rewrite bool_decide_eq_true_2 by lia. simpl.
    rewrite bind_run.
    edestruct (Helem (mkTensorImpl (t_storage ti)
                        (t_offset ti + index * numel tail) tail
                        (t_dtype ti) (t_device ti) (t_is_variable ti)))
      as [st1 Hst1]; [by simpl|].
    rewrite Hst1. apply IH. lia.
Qed.

Lemma Tensor_size0_cons ti n rest :
  t_sizes ti = n :: rest -> Tensor_size0 (Some ti) = Ok n.
Proof. unfold Tensor_size0. simpl. by intros ->. Qed.

Lemma fill_tensor_returns c :
  well_formed c = true -> brace_literal c = true ->
  forall ti st, t_sizes ti = sizes c ->
    exists st', fill_tensor c (Some ti) st = (st', Ok ()).
Proof.
  induction c as [szs kind ty s children t0 IH] using TensorDataContainer_ind.
  intros Hwf Hlit ti st Hsz.
  set (c := mkTensorDataContainer szs kind ty s children t0) in *.
  destruct ty; simpl in Hwf, Hlit; [| |done].
  - apply bool_decide_eq_true_1 in Hwf. subst szs.
    rewrite (fill_tensor_scalar c (Some ti)) by done.
    rewrite bind_run. simpl. unfold sizes in Hsz. simpl in Hsz.
    rewrite Hsz. simpl. by eexists.
  - rewrite (fill_tensor_init_list c (Some ti) st) by done.
    unfold sizes in Hsz. simpl in Hsz.
    destruct children as [|first_elem rest].
    + apply bool_decide_eq_true_1 in Hwf. subst szs.
      rewrite bind_run. unfold lift at 1.
      rewrite (Tensor_size0_cons _ _ _ Hsz). simpl. by eexists.
    + apply andb_prop in Hwf as [Hszs Hall].
      apply bool_decide_eq_true_1 in Hszs. subst szs.
      rewrite bind_run. unfold lift at 1.
      rewrite (Tensor_size0_cons _ _ _ Hsz).
      rewrite bind_run. simpl init_list_.
      rewrite bool_decide_eq_true_2 by done. simpl lift.
      cbv beta iota.
      eapply fill_elems_returns; [exact Hsz| |simpl; lia].
      rewrite forallb_forall in Hall, Hlit.
      rewrite Forall_forall in IH. apply Forall_forall.
      intros elem Hin.
      specialize (Hall elem (proj1 (list_elem_of_In _ _) Hin)).
      specialize (Hlit elem (proj1 (list_elem_of_In _ _) Hin)).
      apply andb_prop in Hall as [Hall Hwf].
      apply andb_prop in Hall as [Hs Hk].
      apply bool_decide_eq_true_1 in Hs.
      split; [done|]. intros ti' st' Hti'. by apply IH.
Qed.

(** ** The constructors establish well-formedness *)

Lemma well_formed_default : well_formed TensorDataContainer_default = true.
Proof. reflexivity. Qed.

Lemma well_formed_value S (v : cpp_type S) :
  well_formed (TensorDataContainer_value S v) = true.
Proof. reflexivity. Qed.

Lemma well_formed_init_list children c :
  Forall (fun elem => well_formed elem = true) children ->
  TensorDataContainer_init_list children = Ok c ->
  well_formed c = true.
Proof.
  intros Hwf. destruct children as [|first_elem rest]; [discriminate|].
  rewrite init_list_unfold.
  destruct (check_sub_lists first_elem (first_elem :: rest)) as [[]| |] eqn:Hchk;
    [|discriminate..].
  intros [= <-]. apply check_sub_lists_Ok_inv in Hchk.
  change (bool_decide (Z.of_nat (length (first_elem :: rest)) :: sizes first_elem
                       = Z.of_nat (length (first_elem :: rest)) :: sizes first_elem)
          && forallb (fun elem =>
               bool_decide (sizes elem = sizes first_elem)
               && bool_decide (scalar_type elem = scalar_type first_elem)
               && well_formed elem) (first_elem :: rest) = true).
  rewrite bool_decide_eq_true_2 by done. rewrite andb_true_l.
  apply forallb_forall. intros elem Hin.
  apply list_elem_of_In in Hin.
  rewrite Forall_forall in Hwf, Hchk.
  destruct (Hchk elem Hin) as [Hs Hk].
  by rewrite (bool_decide_eq_true_2 _ Hs), (bool_decide_eq_true_2 _ Hk), (Hwf elem Hin).
Qed.

Lemma well_formed_ArrayRef S (values : list (cpp_type S)) st st' c :
  TensorDataContainer_ArrayRef S values st = (st', Ok c) ->
  well_formed c = true /\ is_tensor c = true
  /\ sizes c = [Z.of_nat (length values)] /\ scalar_type c = S.
Proof.
  unfold TensorDataContainer_ArrayRef. rewrite bind_run.
  unfold AutoNonVariableTypeMode, at_native_tensor. rewrite !bind_run. simpl.
  intros [= _ <-]. simpl. rewrite length_fmap.
  by rewrite bool_decide_eq_true_2.
Qed.

(** ** [convert_to_tensor] *)

Lemma convert_scalar c options :
  is_scalar c = true ->
  convert_to_tensor c options =
  AutoNonVariableTypeMode true
    (at_scalar_tensor (scalar_ c) (TensorOptions_is_variable options false)).
Proof. unfold convert_to_tensor. by intros ->. Qed.

Lemma convert_init_list c options :
  is_init_list c = true ->
  convert_to_tensor c options =
  (tensor ← AutoNonVariableTypeMode true
              (at_empty (sizes_ c)
                 (TensorOptions_is_variable (TensorOptions_device options kCPU) false));
   fill_tensor c tensor;;
   Tensor_to_device tensor (opt_device options)).
Proof.
  intros H. unfold convert_to_tensor. rewrite H.
  destruct (type_cases c) as [(? & ? & ?)|[(-> & _)|(? & ? & _)]];
    [congruence|done|congruence].
Qed.

Lemma convert_tensor c options :
  is_tensor c = true ->
  convert_to_tensor c options = Tensor_to_options (tensor_ c) options.
Proof.
  intros H. unfold convert_to_tensor. rewrite H.
  destruct (type_cases c) as [(? & ? & ?)|[(? & ? & ?)|(-> & -> & _)]];
    [congruence|congruence|done].
Qed.

(** The allocation on the staging device, under its guard. *)
Lemma empty_under_guard szs o st :
  AutoNonVariableTypeMode true (at_empty szs o) st =
  (mkBackend (heap st ++ [replicate (numel szs) None])
     (non_variable_type_mode st) (grad_mode st)
     (calls st ++ [mkEvent empty_call (opt_device o) true (grad_mode st)]),
   Ok (Some (mkTensorImpl (length (heap st)) 0 szs
               (opt_dtype o) (opt_device o) (opt_is_variable o)))).
Proof. reflexivity. Qed.

(** A transfer of a defined tensor returns a tensor of the same sizes on the
    target device, and logs one call. *)
Lemma Tensor_to_run ti d dtype st :
  exists st' ti',
    Tensor_to (Some ti) d dtype st = (st', Ok (Some ti'))
    /\ t_sizes ti' = t_sizes ti /\ t_device ti' = d /\ t_dtype ti' = dtype
    /\ calls st' = calls st ++ [mkEvent to_call d (non_variable_type_mode st) (grad_mode st)]
    /\ non_variable_type_mode st' = non_variable_type_mode st
    /\ grad_mode st' = grad_mode st.
Proof.
  unfold Tensor_to. rewrite bind_run. simpl.
  destruct (bool_decide (t_device ti = d)) eqn:Hd;
    destruct (bool_decide (t_dtype ti = dtype)) eqn:Hk; simpl;
    try (eexists _, _; repeat split; fail).
  apply bool_decide_eq_true_1 in Hd, Hk.
  eexists _, _. repeat split; done.
Qed.

Lemma Tensor_to_device_Some ti d :
  Tensor_to_device (Some ti) d = Tensor_to (Some ti) d (t_dtype ti).
Proof. reflexivity. Qed.

(** C4.  For a well-formed container, whatever the options and the state of
    the backend: a tensor returned by [convert_to_tensor] is defined and has
    the sizes of the container; and on a flat tensor or on a nested brace
    literal of scalars (no flat tensor inside a brace list)
    [convert_to_tensor] does return such a tensor, on the requested device
    and of the requested dtype. *)
Theorem convert_to_tensor_keeps_sizes c options st :
  well_formed c = true ->
  let result := (convert_to_tensor c options st).2 in
  (forall t, result = Ok t -> exists ti, t = Some ti /\ t_sizes ti = sizes c)
  /\ (is_tensor c = true \/ brace_literal c = true ->
      exists ti,
        result = Ok (Some ti)
        /\ t_sizes ti = sizes c
        /\ t_device ti = opt_device options
        /\ t_dtype ti = opt_dtype options).
Proof.
  intros Hwf result. subst result.
  destruct (type_cases c) as [(H & _ & Hnt)|[(_ & H & Hnt)|(_ & _ & H)]].
  - (* Scalar *)
    rewrite (convert_scalar c options H).
    assert (sizes c = []) as ->.
    { destruct c as [szs kind ty s children t0]. unfold is_scalar in H.
      apply bool_decide_eq_true_1 in H. simpl in H. subst ty.
      simpl in Hwf. by apply bool_decide_eq_true_1 in Hwf. }
    split.
    + intros t [= <-]. by eexists.
    + intros _. by eexists.
  - (* InitList *)
    rewrite (convert_init_list c options H).
    rewrite bind_run, empty_under_guard. rewrite bind_run.
    match goal with |- context [fill_tensor c (Some ?x0) ?x1] =>
      set (tensor0 := x0); set (st1 := x1) end.
    split.
    + intros t.
      destruct (fill_tensor c (Some tensor0) st1) as [st2 [[]| |]];
        [|done..].
      destruct (Tensor_to_run tensor0 (opt_device options) (t_dtype tensor0) st2)
        as (st3 & ti' & Hto & Hsz & _).
      cbv beta iota. rewrite Tensor_to_device_Some, Hto.
      intros [= <-]. by exists ti'.
    + intros [Ht|Hlit]; [congruence|].
      destruct (fill_tensor_returns c Hwf Hlit tensor0 st1) as [st2 Hfill];
        [done|].
      rewrite Hfill.
      destruct (Tensor_to_run tensor0 (opt_device options) (t_dtype tensor0) st2)
        as (st3 & ti' & Hto & Hsz & Hdev & Hk & _).
      cbv beta iota. rewrite Tensor_to_device_Some, Hto.
      by exists ti'.
  - (* Tensor *)
    rewrite (convert_tensor c options H).
    assert (exists ti, tensor_ c = Some ti /\ t_sizes ti = sizes c)
      as (ti & -> & <-).
    { destruct c as [szs kind ty s children t0]. unfold is_tensor in H.
      apply bool_decide_eq_true_1 in H. simpl in H. subst ty.
      simpl in Hwf. destruct t0 as [ti|]; [|done].
      apply bool_decide_eq_true_1 in Hwf. by exists ti. }
    unfold Tensor_to_options.
    destruct (Tensor_to_run ti (opt_device options) (opt_dtype options) st)
      as (st3 & ti' & Hto & Hsz & Hdev & Hk & _).
    rewrite Hto. split.
    + intros t [= <-]. by exists ti'.
    + intros _. by exists ti'.
Qed.

Lemma convert_to_tensor_keeps_sizes_witness :
  let result :=
    (convert_to_tensor
       (braces [braces [literal_int 1; literal_int 2];
                braces [literal_int 3; literal_int 4]])
       (options_on kCUDA) Backend_initial).2 in
  exists ti,
    result = Ok (Some ti)
    /\ t_sizes ti = [2; 2]
    /\ t_device ti = kCUDA
    /\ t_dtype ti = kInt.
Proof.
  apply (proj2 (convert_to_tensor_keeps_sizes
                  (braces [braces [literal_int 1; literal_int 2];
                           braces [literal_int 3; literal_int 4]])
                  (options_on kCUDA) Backend_initial eq_refl)).
  right. reflexivity.
Defined.

(** ** The calls of a materialization *)

Lemma count_calls_app c l1 l2 :
  count_calls c (l1 ++ l2) = (count_calls c l1 + count_calls c l2)%nat.
Proof. unfold count_calls. by rewrite filter_app, length_app. Qed.

Lemma count_calls_none c l :
  Forall (fun e => ev_call e <> c) l -> count_calls c l = 0%nat.
Proof.
  unfold count_calls. induction 1 as [|e l He _ IH]; [done|].
  by rewrite filter_cons_False.
Qed.

Lemma fill_event_staged d nv g e :
  fill_event d nv g e ->
  ev_call e <> to_call /\ (ev_call e = fill_call -> ev_device e = d).
Proof.
  intros (Hd & _ & [[Hc _]|[Hc _]]); rewrite Hc; split; done.
Qed.

(** C5.  Materializing a container of [InitList] type, whatever the target
    device: the calls logged are a staging part, without any transfer and
    with every write on the CPU, followed by at most one call of [to], for
    the target device.  So [to] is called at most once, after all the
    writes, and exactly once when a tensor is returned. *)
Theorem staged_fill_then_single_transfer c options st :
  is_init_list c = true ->
  let run := convert_to_tensor c options st in
  exists staged transfer,
    calls run.1 = calls st ++ staged ++ transfer
    /\ Forall (fun e => ev_call e <> to_call
                        /\ (ev_call e = fill_call -> ev_device e = kCPU)) staged
    /\ (transfer = []
        \/ transfer = [mkEvent to_call (opt_device options)
                         (non_variable_type_mode st) (grad_mode st)])
    /\ (count_calls to_call (staged ++ transfer) <= 1)%nat
    /\ (forall t, run.2 = Ok t -> count_calls to_call (staged ++ transfer) = 1%nat).
Proof.
  intros H run. subst run. rewrite (convert_init_list c options H).
  rewrite bind_run, empty_under_guard. rewrite bind_run.
  match goal with |- context [fill_tensor c (Some ?x0) ?x1] =>
    set (tensor0 := x0); set (st1 := x1) end.
  pose proof (logs_fill_tensor c (Some tensor0) st1) as Hlog.
  destruct (fill_tensor c (Some tensor0) st1) as [st2 r2].
  destruct Hlog as (Hnv & Hg & new & Hcalls & Hnew).
  simpl in Hnv, Hg, Hcalls, Hnew.
  assert (Forall (fun e => ev_call e <> to_call
                           /\ (ev_call e = fill_call -> ev_device e = kCPU))
            (mkEvent empty_call kCPU true (grad_mode st) :: new)) as Hstaged.
  { constructor; [by split|].
    eapply Forall_impl; [exact Hnew|]. intros e. apply fill_event_staged. }
  assert (count_calls to_call
            (mkEvent empty_call kCPU true (grad_mode st) :: new) = 0%nat)
    as Hcount.
  { apply count_calls_none. eapply Forall_impl; [exact Hstaged|].
    by intros e [? _]. }
  destruct r2 as [[]| |].
  - cbv beta iota. rewrite Tensor_to_device_Some.
    destruct (Tensor_to_run tensor0 (opt_device options) (t_dtype tensor0) st2)
      as (st3 & ti' & Hto & _ & _ & _ & Hcalls3 & _).
    rewrite Hto. simpl fst. simpl snd.
    eexists _, _. split; [|split; [exact Hstaged|split; [by right|]]].
    + rewrite Hcalls3, Hcalls, Hnv, Hg. by rewrite <- !app_assoc.
    + rewrite count_calls_app, Hcount. split; [done|]. by intros.
  - simpl fst. simpl snd.
    exists (mkEvent empty_call kCPU true (grad_mode st) :: new), [].
    rewrite app_nil_r. split; [by rewrite Hcalls, <- app_assoc|].
    split; [done|]. split; [by left|]. rewrite Hcount. split; [lia|done].
  - simpl fst. simpl snd.
    exists (mkEvent empty_call kCPU true (grad_mode st) :: new), [].
    rewrite app_nil_r. split; [by rewrite Hcalls, <- app_assoc|].
    split; [done|]. split; [by left|]. rewrite Hcount. split; [lia|done].
Qed.

Lemma staged_fill_then_single_transfer_witness :
  let run := convert_to_tensor (braces [literal_int 1; literal_int 2])
               (options_on kCUDA) Backend_initial in
  exists staged transfer,
    calls run.1 = calls Backend_initial ++ staged ++ transfer
    /\ Forall (fun e => ev_call e <> to_call
                        /\ (ev_call e = fill_call -> ev_device e = kCPU)) staged
    /\ (transfer = [] \/ transfer = [mkEvent to_call kCUDA false true])
    /\ (count_calls to_call (staged ++ transfer) <= 1)%nat
    /\ (forall t, run.2 = Ok t ->
        count_calls to_call (staged ++ transfer) = 1%nat).
Proof.
  apply (staged_fill_then_single_transfer
           (braces [literal_int 1; literal_int 2]) (options_on kCUDA)
           Backend_initial).
  reflexivity.
Defined.

(** C6, as stated, fails: materializing the brace list [{1}] for a CUDA
    device from a fresh thread, the last backend call is the transfer, and
    it is made with variable dispatch on and gradient recording on: the
    guard of [convert_to_tensor] was lifted at the end of the lambda that
    allocates. *)
Lemma transfer_runs_outside_the_guard :
  last (calls (convert_to_tensor (braces [literal_int 1]) (options_on kCUDA)
                 Backend_initial).1)
  = Some (mkEvent to_call kCUDA false true).
Proof. reflexivity. Qed.

(** C6, amended.  In every run of [convert_to_tensor] and of the constructor
    from a flat sequence, returning or throwing: the factory calls
    ([at::scalar_tensor], [at::empty], [at::native::tensor]) are made with
    [AutoNonVariableTypeMode] on, the leaf writes with gradient recording
    off, the sub-view indexing and the [to] transfers with the modes of the
    caller; and both modes are afterwards as the caller had them. *)
Theorem guards_cover_factories_and_writes :
  (forall c options, logs core_event (convert_to_tensor c options))
  /\ (forall S values, logs core_event (TensorDataContainer_ArrayRef S values)).
Proof.
  split.
  - intros c options.
    destruct (type_cases c) as [(H & _)|[(_ & H & _)|(_ & _ & H)]].
    + rewrite (convert_scalar c options H).
      apply (logs_AutoNonVariableTypeMode _ (fun nv g e =>
               ev_call e = scalar_tensor_call
               /\ ev_non_variable_type_mode e = nv /\ ev_grad_mode e = g)).
      * intros nv g e (Hc & Hn & Hg). unfold core_event. by rewrite Hc.
      * by apply logs_at_scalar_tensor.
    + rewrite (convert_init_list c options H).
      apply logs_bind.
      { apply (logs_AutoNonVariableTypeMode _ (fun nv g e =>
                 ev_call e = empty_call
                 /\ ev_non_variable_type_mode e = nv /\ ev_grad_mode e = g)).
        - intros nv g e (Hc & Hn & Hg). unfold core_event. by rewrite Hc.
        - by apply logs_at_empty. }
      intros tensor0. apply logs_bind.
      { eapply logs_mono; [|apply logs_fill_tensor].
        intros nv g e (_ & Hn & [[Hc Hg]|[Hc Hg]]);
          unfold core_event; by rewrite Hc. }
      intros _. destruct tensor0 as [ti|]; [|apply logs_lift].
      rewrite Tensor_to_device_Some. apply logs_Tensor_to.
      intros nv g. by unfold core_event.
    + rewrite (convert_tensor c options H).
      apply logs_Tensor_to. intros nv g. by unfold core_event.
  - intros S values. unfold TensorDataContainer_ArrayRef.
    apply logs_bind; [|intros t; apply logs_ret].
    apply (logs_AutoNonVariableTypeMode _ (fun nv g e =>
             ev_call e = tensor_call
             /\ ev_non_variable_type_mode e = nv /\ ev_grad_mode e = g)).
    + intros nv g e (Hc & Hn & Hg). unfold core_event. by rewrite Hc.
    + by apply logs_at_native_tensor.
Qed.

Lemma guards_cover_factories_and_writes_witness :
  extends (core_event false true) Backend_initial
    (convert_to_tensor (braces [literal_int 1]) (options_on kCUDA)
       Backend_initial).1.
Proof.
  apply (proj1 guards_cover_factories_and_writes
           (braces [literal_int 1]) (options_on kCUDA) Backend_initial).
Defined.

(** C8: the branch of [fill_tensor] for the [Tensor] type is reached.  A
    brace list of two flat sequences passes the checks of the list
    constructor (equal sizes [[2]], equal scalar type); materializing it
    allocates, calls [fill_tensor] on the first child, and throws the
    internal assertion of that branch. *)
Theorem fill_tensor_reached_on_flat_child :
  (exists v st,
     flat_ints [1; 2] Backend_initial = (st, Ok v)
     /\ is_tensor v = true
     /\ exists c, TensorDataContainer_init_list [v; v] = Ok c
                  /\ well_formed c = true /\ sizes c = [2; 2])
  /\ (materialize_braces_of_flat (options_on kCPU) Backend_initial).2
     = Throw (InternalAssert
                "TensorDataContainer is already a Tensor type, `fill_tensor` should not be called").
Proof.
  split; [|reflexivity].
  eexists _, _. split; [reflexivity|]. split; [reflexivity|].
  eexists. split; [reflexivity|]. split; reflexivity.
Qed.

(** ** [pretty_print_recursive] *)

Lemma append_assoc (s1 s2 s3 : string) :
  (s1 +:+ s2) +:+ s3 = s1 +:+ (s2 +:+ s3).
Proof.
  induction s1 as [|a s1 IH]; [done|].
  change (String a ((s1 +:+ s2) +:+ s3) = String a (s1 +:+ s2 +:+ s3)).
  by f_equal.
Qed.

Lemma append_empty_r (s : string) : s +:+ "" = s.
Proof.
  induction s as [|a s IH]; [done|].
  change (String a (s +:+ "") = String a s). by f_equal.
Qed.

Section Printing_facts.
Variable format : ScalarType -> c10_Scalar -> outcome string.
Variable st : Backend.

Lemma pretty_print_init_list c stream :
  is_init_list c = true ->
  pretty_print_recursive format st c stream =
  (put "{";; print_elems format st (init_list_ c);; put "}") stream.
Proof.
  destruct c as [szs kind ty s children t]. unfold is_init_list. simpl.
  intros Hty. apply bool_decide_eq_true_1 in Hty. subst ty. simpl.
  rewrite !bind_run. simpl. rewrite !bind_run.
  match goal with |- (let (_, _) := ?run in _) = _ =>
    replace run with (print_elems format st children (stream +:+ "{"));
      [done|]
  end.
  generalize (stream +:+ "{").
  induction children as [|elem rest IH]; intros stream1; [done|].
  simpl. rewrite !bind_run.
  destruct (pretty_print_recursive format st elem stream1)
    as [stream2 [[]| |]]; [|done..].
  rewrite !bind_run.
  destruct rest as [|elem2 rest]; simpl; [done|].
  apply (IH (stream2 +:+ ", ")).
Qed.

Lemma pretty_print_tensor c stream :
  is_tensor c = true ->
  pretty_print_recursive format st c stream =
  (put "{";;
   n ← lift (Tensor_size0 (tensor_ c));
   print_items format st (scalar_type_ c) (tensor_ c) (Z.to_nat n) 0%nat;;
   put "}") stream.
Proof.
  destruct c as [szs kind ty s children t]. unfold is_tensor. simpl.
  intros Hty. apply bool_decide_eq_true_1 in Hty. by subst ty.
Qed.

(** The iterator loop writes the children's texts with [", "] between
    two of them. *)
Lemma print_elems_separated elems texts :
  Forall2 (renders format st) elems texts ->
  forall stream,
    print_elems format st elems stream
    = (stream +:+ String.concat ", " texts, Ok ()).
Proof.
  induction 1 as [|elem text rest texts Helem Hrest IH]; intros stream.
  - simpl. by rewrite append_empty_r.
  - simpl print_elems. rewrite bind_run, Helem. rewrite bind_run.
    destruct Hrest as [|elem2 text2 rest texts Helem2 Hrest].
    + simpl. done.
    + unfold put at 1. rewrite IH.
      change (String.concat ", " (text :: text2 :: texts))
        with (text +:+ ", " +:+ String.concat ", " (text2 :: texts)).
      by rewrite !append_assoc.
Qed.

(** The index loop writes the items' texts with nothing between them. *)
Lemma print_items_adjacent c n texts :
  forall i,
    Forall2 (item_renders format st c) (seq i n) texts ->
    forall stream,
      print_items format st (scalar_type_ c) (tensor_ c) n i stream
      = (stream +:+ String.concat "" texts, Ok ()).
Proof.
  revert texts.
  induction n as [|n IH]; intros texts i Hall stream.
  - inversion Hall; subst. simpl. by rewrite append_empty_r.
  - simpl in Hall. inversion Hall as [|? text ? texts' Hitem Hrest]; subst.
    simpl print_items. rewrite bind_run, Hitem.
    rewrite (IH texts' (S i) Hrest).
    destruct texts' as [|text2 texts'].
    + simpl. by rewrite append_empty_r.
    + change (String.concat "" (text :: text2 :: texts'))
        with (text +:+ "" +:+ String.concat "" (text2 :: texts')).
      simpl ("" +:+ _). by rewrite append_assoc.
Qed.

(** C9.  A container of [InitList] type whose children render as [texts]
    renders as an open brace, the texts separated by a comma and a space,
    and a close brace.  A container of [Tensor] type whose items render as
    [texts] renders as an open brace, the texts with nothing between
    them, and a close brace. *)
Theorem braces_rendering c :
  (is_init_list c = true ->
   forall texts,
     Forall2 (renders format st) (init_list_ c) texts ->
     renders format st c (comma_separated texts))
  /\ (is_tensor c = true ->
      forall n texts,
        Tensor_size0 (tensor_ c) = Ok n ->
        Forall2 (item_renders format st c) (seq 0 (Z.to_nat n)) texts ->
        renders format st c (adjacent texts)).
Proof.
  split.
  - intros H texts Hall stream.
    rewrite (pretty_print_init_list c stream H).
    rewrite bind_run. unfold put at 1.
    rewrite bind_run, (print_elems_separated _ _ Hall).
    unfold comma_separated, put. by rewrite !append_assoc.
  - intros H n texts Hn Hall stream.
    rewrite (pretty_print_tensor c stream H).
    rewrite bind_run. unfold put at 1.
    rewrite bind_run. unfold lift at 1. rewrite Hn.
    rewrite bind_run, (print_items_adjacent c _ texts 0%nat Hall).
    unfold adjacent, put. by rewrite !append_assoc.
Qed.

End Printing_facts.

Lemma braces_rendering_witness :
  renders format_integers Backend_initial
    (braces [literal_int 1; literal_int 2]) "{1, 2}"
  /\ renders format_integers flat_bools_run.1
       (returned TensorDataContainer_default flat_bools_run) "{101}".
Proof.
  split.
  - apply (proj1 (braces_rendering format_integers Backend_initial
                    (braces [literal_int 1; literal_int 2]))
             eq_refl ["1"; "2"]).
    repeat constructor.
  - apply (proj2 (braces_rendering format_integers flat_bools_run.1
                    (returned TensorDataContainer_default flat_bools_run))
             eq_refl 3 ["1"; "0"; "1"] eq_refl).
    repeat constructor.
Defined.

(** * Further properties of the code *)

(** ** Invariants of the constructors *)

(** X1.  The constructors build well-formed containers: the default and the
    scalar constructor do, the flat-sequence constructor does whenever it
    runs, and the list constructor does whenever it accepts well-formed
    children. *)
Theorem constructors_keep_well_formed :
  well_formed TensorDataContainer_default = true
  /\ (forall S (v : cpp_type S), well_formed (TensorDataContainer_value S v) = true)
  /\ (forall children c,
        Forall (fun elem => well_formed elem = true) children ->
        TensorDataContainer_init_list children = Ok c ->
        well_formed c = true)
  /\ (forall S (values : list (cpp_type S)) st,
        exists c,
          (TensorDataContainer_ArrayRef S values st).2 = Ok c
          /\ well_formed c = true
          /\ sizes c = [Z.of_nat (length values)]).
Proof.
  split; [apply well_formed_default|].
  split; [apply well_formed_value|].
  split; [apply well_formed_init_list|].
  intros S values st.
  destruct (TensorDataContainer_ArrayRef S values st) as [st' r] eqn:Hrun.
  assert (exists c, r = Ok c) as [c ->].
  { revert Hrun. unfold TensorDataContainer_ArrayRef. rewrite bind_run.
    unfold AutoNonVariableTypeMode, at_native_tensor. rewrite !bind_run. simpl.
    intros [= _ <-]. by eexists. }
  destruct (well_formed_ArrayRef S values st st' c Hrun) as (Hwf & _ & Hsz & _).
  by exists c.
Qed.

Lemma constructors_keep_well_formed_witness :
  well_formed two_by_two = true.
Proof.
  apply (proj1 (proj2 (proj2 constructors_keep_well_formed))
           [braces [literal_int 1; literal_int 2];
            braces [literal_int 3; literal_int 4]] two_by_two).
  - repeat constructor.
  - reflexivity.
Defined.

Lemma Forall_flat_map {A B} (P : B -> Prop) (f : A -> list B) (l : list A) :
  Forall (fun x => Forall P (f x)) l -> Forall P (flat_map f l).
Proof.
  induction 1 as [|x l Hx _ IH]; simpl; [constructor|].
  by apply Forall_app.
Qed.

(** X2.  Element kinds are unified through the whole literal: a scalar
    container and a flat-sequence container are kind-uniform, and a list
    the constructor accepts is kind-uniform when its children are, so every
    leaf of a literal built by the constructors has the scalar type the
    outermost container reports. *)
Theorem constructors_keep_kinds_uniform :
  (forall S (v : cpp_type S), kind_uniform (TensorDataContainer_value S v))
  /\ (forall S (values : list (cpp_type S)) st c,
        (TensorDataContainer_ArrayRef S values st).2 = Ok c -> kind_uniform c)
  /\ (forall children c,
        Forall kind_uniform children ->
        TensorDataContainer_init_list children = Ok c ->
        kind_uniform c).
Proof.
  split; [|split].
  - intros S v. by repeat constructor.
  - intros S values st c.
    unfold TensorDataContainer_ArrayRef. rewrite bind_run.
    unfold AutoNonVariableTypeMode, at_native_tensor. rewrite !bind_run. simpl.
    intros [= <-]. by repeat constructor.
  - intros [|first_elem rest] c Huni; [discriminate|].
    rewrite init_list_unfold.
    destruct (check_sub_lists first_elem (first_elem :: rest)) as [[]| |] eqn:Hchk;
      [|discriminate..].
    intros [= <-]. apply check_sub_lists_Ok_inv in Hchk.
    unfold kind_uniform.
    change (Forall (fun kind => kind = scalar_type first_elem)
              (flat_map leaf_kinds (first_elem :: rest))).
    apply Forall_flat_map.
    rewrite Forall_forall in Huni, Hchk. apply Forall_forall.
    intros elem Hin. destruct (Hchk elem Hin) as [_ Hk].
    rewrite <- Hk. by apply Huni.
Qed.

Lemma constructors_keep_kinds_uniform_witness :
  kind_uniform (braces [literal_int 1; literal_int 2]).
Proof.
  apply (proj2 (proj2 constructors_keep_kinds_uniform)
           [literal_int 1; literal_int 2]).
  - repeat constructor.
  - reflexivity.
Defined.

Lemma numel_cons n tail : numel (Z.of_nat n :: tail) = (n * numel tail)%nat.
Proof.
  unfold numel. simpl. set (P := foldr Z.mul 1 tail).
  destruct (Z.le_gt_cases 0 P) as [HP|HP].
  - rewrite Z2Nat.inj_mul by lia. by rewrite Nat2Z.id.
  - rewrite (Z2Nat.nonpos P) by lia. rewrite Z2Nat.nonpos by nia. lia.
Qed.

Lemma length_flat_map_const {A B} (f : A -> list B) (l : list A) k :
  Forall (fun x => length (f x) = k) l ->
  length (flat_map f l) = (length l * k)%nat.
Proof.
  induction 1 as [|x l Hx _ IH]; simpl; [done|].
  rewrite length_app. lia.
Qed.

(** What well-formedness says of a non-empty brace list. *)
Lemma well_formed_init_list_inv szs kind s first_elem rest t :
  well_formed (mkTensorDataContainer szs kind TensorDataContainerType.InitList
                 s (first_elem :: rest) t) = true ->
  szs = Z.of_nat (length (first_elem :: rest)) :: sizes first_elem
  /\ Forall (fun elem => sizes elem = sizes first_elem
                         /\ well_formed elem = true) (first_elem :: rest).
Proof.
  intros Hwf.
  change (bool_decide (szs = Z.of_nat (length (first_elem :: rest)) :: sizes first_elem)
          && forallb (fun elem =>
               bool_decide (sizes elem = sizes first_elem)
               && bool_decide (scalar_type elem = scalar_type first_elem)
               && well_formed elem) (first_elem :: rest) = true) in Hwf.
  apply andb_prop in Hwf as [Hszs Hall].
  apply bool_decide_eq_true_1 in Hszs. split; [done|].
  rewrite forallb_forall in Hall. apply Forall_forall. intros elem Hin.
  specialize (Hall elem (proj1 (list_elem_of_In _ _) Hin)).
  apply andb_prop in Hall as [Hall Hwf].
  apply andb_prop in Hall as [Hs _].
  by apply bool_decide_eq_true_1 in Hs.
Qed.

Lemma length_leaves c :
  well_formed c = true -> brace_literal c = true ->
  length (leaves c) = numel (sizes c).
Proof.
  induction c as [szs kind ty s children t0 IH] using TensorDataContainer_ind.
  intros Hwf Hlit. destruct ty; [| |done].
  - simpl in Hwf. apply bool_decide_eq_true_1 in Hwf. by subst szs.
  - destruct children as [|first_elem rest].
    + simpl in Hwf. apply bool_decide_eq_true_1 in Hwf. by subst szs.
    + apply well_formed_init_list_inv in Hwf as [-> Hall].
      change (length (flat_map leaves (first_elem :: rest))
              = numel (Z.of_nat (length (first_elem :: rest)) :: sizes first_elem)).
      rewrite numel_cons. apply length_flat_map_const.
      simpl in Hlit. change (forallb brace_literal (first_elem :: rest) = true) in Hlit.
      rewrite forallb_forall in Hlit.
      rewrite Forall_forall in IH, Hall. apply Forall_forall.
      intros elem Hin. destruct (Hall elem Hin) as [Hs Hwf].
      rewrite <- Hs. apply IH; [done..|].
      apply Hlit. by apply list_elem_of_In.
Qed.

(** X3.  The sizes count the elements: a well-formed brace literal has as
    many scalars as the product of its sizes. *)
Theorem sizes_count_the_leaves c :
  well_formed c = true -> brace_literal c = true ->
  length (leaves c) = numel (sizes c).
Proof. apply length_leaves. Qed.

Lemma sizes_count_the_leaves_witness :
  length (leaves two_by_two) = 4%nat.
Proof.
  apply (sizes_count_the_leaves two_by_two); reflexivity.
Defined.

(** ** What [fill_tensor] writes *)

(** A sub-view that was returned: same storage and device, the offset moved
    by [i] rows, one call logged, the heap as it was. *)
Lemma Tensor_index_Ok t i st st' sub :
  Tensor_index t i st = (st', Ok sub) ->
  exists ti n rest,
    t = Some ti /\ t_sizes ti = n :: rest /\ Z.of_nat i < n
    /\ sub = Some (mkTensorImpl (t_storage ti) (t_offset ti + i * numel rest)
                     rest (t_dtype ti) (t_device ti) (t_is_variable ti))
    /\ heap st' = heap st
    /\ calls st' = calls st ++ [mkEvent index_call (t_device ti)
                                  (non_variable_type_mode st) (grad_mode st)].
Proof.
  unfold Tensor_index. rewrite bind_run. unfold lift at 1.
  destruct t as [ti|]; [|discriminate]. simpl.
  destruct (t_sizes ti) as [|n rest] eqn:Hsz; [discriminate|].
  case_bool_decide as Hlt; [|discriminate].
  intros [= <- <-]. by exists ti, n, rest.
Qed.

Lemma Tensor_index_run ti n rest i st :
  t_sizes ti = n :: rest -> Z.of_nat i < n ->
  Tensor_index (Some ti) i st =
  (mkBackend (heap st) (non_variable_type_mode st) (grad_mode st)
     (calls st ++ [mkEvent index_call (t_device ti)
                     (non_variable_type_mode st) (grad_mode st)]),
   Ok (Some (mkTensorImpl (t_storage ti) (t_offset ti + i * numel rest)
               rest (t_dtype ti) (t_device ti) (t_is_variable ti)))).
Proof.
  intros Hsz Hlt. unfold Tensor_index. rewrite bind_run. unfold lift at 1.
  simpl. rewrite Hsz. by rewrite bool_decide_eq_true_2.
Qed.

(** The leaf write under its guard. *)
Lemma fill_under_guard ti s st :
  NoGradGuard (Tensor_fill_ (Some ti) s) st =
  (mkBackend
     (alter (fill_cells (t_offset ti) (numel (t_sizes ti)) s)
        (t_storage ti) (heap st))
     (non_variable_type_mode st) (grad_mode st)
     (calls st ++ [mkEvent fill_call (t_device ti)
                     (non_variable_type_mode st) false]),
   Ok ()).
Proof. reflexivity. Qed.

Lemma fill_elems_counts tensor elems :
  Forall (fun elem => forall t st st',
            fill_tensor elem t st = (st', Ok ()) ->
            exists new, calls st' = calls st ++ new
                        /\ count_calls fill_call new = length (leaves elem)) elems ->
  forall index st st',
    fill_elems tensor elems index st = (st', Ok ()) ->
    exists new, calls st' = calls st ++ new
                /\ count_calls fill_call new = length (flat_map leaves elems).
Proof.
  induction 1 as [|elem rest Helem _ IH]; intros index st st'; simpl.
  - intros [= <-]. exists []. by rewrite app_nil_r.
  - rewrite bind_run.
    destruct (Tensor_index tensor index st) as [st1 [sub| |]] eqn:Hidx;
      [|discriminate..].
    apply Tensor_index_Ok in Hidx
      as (ti & n & tail & -> & _ & _ & _ & _ & Hcalls1).
    rewrite bind_run.
    destruct (fill_tensor elem sub st1) as [st2 [[]| |]] eqn:Hfill;
      [|discriminate..].
    destruct (Helem _ _ _ Hfill) as (new1 & Hcalls2 & Hcount1).
    intros Hrest. destruct (IH _ _ _ Hrest) as (new2 & Hcalls3 & Hcount2).
    eexists. split.
    + rewrite Hcalls3, Hcalls2, Hcalls1. rewrite <- !app_assoc. reflexivity.
    + rewrite !count_calls_app, Hcount1, Hcount2, length_app. done.
Qed.

(** A run of [fill_tensor] that returns made one write per scalar. *)
Lemma fill_tensor_counts c :
  forall t st st',
    fill_tensor c t st = (st', Ok ()) ->
    exists new, calls st' = calls st ++ new
                /\ count_calls fill_call new = length (leaves c).
Proof.
  induction c as [szs kind ty s children t0 IH] using TensorDataContainer_ind.
  intros t st st'. set (c := mkTensorDataContainer szs kind ty s children t0).
  destruct ty.
  - rewrite (fill_tensor_scalar c t eq_refl). rewrite bind_run.
    destruct t as [ti|]; [|discriminate].
    change (lift (Tensor_dim (Some ti)) st)
      with (st, Ok (Z.of_nat (length (t_sizes ti)))).
    cbv beta iota. rewrite bind_run. unfold lift at 1, TORCH_INTERNAL_ASSERT.
    destruct (bool_decide _); [|discriminate].
    rewrite fill_under_guard. intros [= <-]. simpl.
    eexists. split; [reflexivity|]. done.
  - rewrite (fill_tensor_init_list c t st eq_refl). rewrite bind_run.
    unfold lift at 1.
    destruct (Tensor_size0 t) as [n| |]; [|discriminate..].
    rewrite bind_run. unfold lift at 1, TORCH_INTERNAL_ASSERT.
    destruct (bool_decide _); [|discriminate].
    apply (fill_elems_counts t children IH).
  - rewrite (fill_tensor_tensor c t eq_refl). discriminate.
Qed.

(** X4.  One allocation, one write per scalar, one transfer: when
    materializing a container of [InitList] type returns a tensor, the
    backend was called once for [at::empty], once for [fill_] per scalar of
    the literal, and once for [to]. *)
Theorem materialize_writes_once_per_scalar c options st t :
  is_init_list c = true ->
  (convert_to_tensor c options st).2 = Ok t ->
  exists new,
    calls (convert_to_tensor c options st).1 = calls st ++ new
    /\ count_calls empty_call new = 1%nat
    /\ count_calls fill_call new = length (leaves c)
    /\ count_calls to_call new = 1%nat.
Proof.
  intros H. rewrite (convert_init_list c options H).
  rewrite bind_run, empty_under_guard. rewrite bind_run.
  match goal with |- context [fill_tensor c (Some ?x0) ?x1] =>
    set (tensor0 := x0); set (st1 := x1) end.
  pose proof (logs_fill_tensor c (Some tensor0) st1) as Hlog.
  destruct (fill_tensor c (Some tensor0) st1) as [st2 [[]| |]] eqn:Hfill;
    [|discriminate..].
  destruct (fill_tensor_counts c _ _ _ Hfill) as (new & Hcalls & Hcount).
  destruct Hlog as (_ & _ & new' & Hcalls' & Hnew).
  simpl in Hcalls'. rewrite Hcalls in Hcalls'.
  apply app_inv_head in Hcalls'. subst new'.
  cbv beta iota. rewrite Tensor_to_device_Some.
  destruct (Tensor_to_run tensor0 (opt_device options) (t_dtype tensor0) st2)
    as (st3 & ti' & Hto & _ & _ & _ & Hcalls3 & _).
  rewrite Hto. intros _. simpl fst.
  exists (mkEvent empty_call kCPU true (grad_mode st) :: new
          ++ [mkEvent to_call (opt_device options)
                (non_variable_type_mode st2) (grad_mode st2)]).
  split; [rewrite Hcalls3, Hcalls; simpl; by rewrite <- !app_assoc|].
  assert (count_calls empty_call new = 0%nat /\ count_calls to_call new = 0%nat)
    as [He Ht].
  { split; apply count_calls_none; (eapply Forall_impl; [exact Hnew|]);
      intros e (_ & _ & [[Hc _]|[Hc _]]); by rewrite Hc. }
  change (mkEvent empty_call kCPU true (grad_mode st) :: new ++ ?l)
    with ([mkEvent empty_call kCPU true (grad_mode st)] ++ new ++ l).
  rewrite !count_calls_app, He, Ht, Hcount. done.
Qed.

Lemma materialize_writes_once_per_scalar_witness :
  exists new,
    calls (convert_to_tensor two_by_two (options_on kCUDA) Backend_initial).1
    = calls Backend_initial ++ new
    /\ count_calls empty_call new = 1%nat
    /\ count_calls fill_call new = 4%nat
    /\ count_calls to_call new = 1%nat.
Proof.
  apply (materialize_writes_once_per_scalar two_by_two (options_on kCUDA)
           Backend_initial
           (Some (mkTensorImpl 1 0 [2; 2] kInt kCUDA false)));
    reflexivity.
Defined.

(** Writing [k] cells at [o] and then [m] cells right after them. *)
Lemma splice_twice {A} (cells written next : list A) (o k m : nat) :
  length written = k -> length next = m -> (o + k + m <= length cells)%nat ->
  take (o + k) (take o cells ++ written ++ drop (o + k) cells)
  ++ next ++ drop (o + k + m) (take o cells ++ written ++ drop (o + k) cells)
  = take o cells ++ (written ++ next) ++ drop (o + k + m) cells.
Proof.
  intros Hk Hm Hlen.
  assert (length (take o cells ++ written) = (o + k)%nat) as Hpre.
  { rewrite length_app, length_take_le by lia. lia. }
  rewrite (app_assoc (take o cells) written).
  rewrite take_app_length' by done.
  rewrite drop_app_add' by done.
  rewrite drop_drop. by rewrite <- !app_assoc.
Qed.

Lemma length_splice {A} (cells written : list A) (o k : nat) :
  length written = k -> (o + k <= length cells)%nat ->
  length (take o cells ++ written ++ drop (o + k) cells) = length cells.
Proof.
  intros Hk Hlen. rewrite !length_app, length_take_le, length_drop by lia. lia.
Qed.

Lemma fill_cells_one off s cells :
  (off < length cells)%nat ->
  fill_cells off 1 s cells = take off cells ++ [Some s] ++ drop (off + 1) cells.
Proof.
  intros Hlt. unfold fill_cells. simpl.
  rewrite insert_take_drop by done. by rewrite Nat.add_1_r.
Qed.

Lemma fill_elems_writes ti n tail k elems :
  t_sizes ti = Z.of_nat n :: tail -> numel tail = k ->
  Forall (fun elem =>
            length (leaves elem) = k /\ sizes elem = tail
            /\ forall ti' st cells,
                 t_sizes ti' = sizes elem ->
                 heap st !! t_storage ti' = Some cells ->
                 (t_offset ti' + numel (sizes elem) <= length cells)%nat ->
                 exists st',
                   fill_tensor elem (Some ti') st = (st', Ok ())
                   /\ heap st' !! t_storage ti'
                      = Some (take (t_offset ti') cells
                              ++ (Some <$> leaves elem)
                              ++ drop (t_offset ti' + numel (sizes elem)) cells))
         elems ->
  forall index st cells,
    heap st !! t_storage ti = Some cells ->
    (index + length elems <= n)%nat ->
    (t_offset ti + (index + length elems) * k <= length cells)%nat ->
    exists st',
      fill_elems (Some ti) elems index st = (st', Ok ())
      /\ heap st' !! t_storage ti
         = Some (take (t_offset ti + index * k) cells
                 ++ (Some <$> flat_map leaves elems)
                 ++ drop (t_offset ti + (index + length elems) * k) cells).
Proof.
  intros Hsz Hk.
  induction 1 as [|elem rest (Hlen & Htail & Helem) Hrest_all IH];
    intros index st cells Hcells Hn Hbound; simpl in *.
  - eexists. split; [reflexivity|].
    rewrite Nat.add_0_r. by rewrite take_drop.
  - rewrite bind_run, (Tensor_index_run ti _ _ index st Hsz) by lia.
    rewrite Hk. rewrite bind_run.
    match goal with |- context [fill_tensor elem (Some ?x0) ?x1] =>
      set (sub := x0); set (st1 := x1) end.
    destruct (Helem sub st1 cells) as (st2 & Hfill & Hheap2);
      [by rewrite Htail|done|rewrite Htail, Hk; simpl; nia|].
    rewrite Hfill. simpl in Hheap2. rewrite Htail, Hk in Hheap2.
    set (o := (t_offset ti + index * k)%nat) in *.
    set (cells2 := take o cells ++ (Some <$> leaves elem) ++ drop (o + k) cells) in *.
    assert (length (Some <$> leaves elem) = k) as Hwritten
      by by rewrite length_fmap.
    assert (length cells2 = length cells) as Hlen2
      by (apply length_splice; [done|unfold o; nia]).
    destruct (IH (S index) st2 cells2 Hheap2) as (st3 & Hrest & Hheap3);
      [lia|rewrite Hlen2; nia|].
    exists st3. split; [done|]. rewrite Hheap3. f_equal.
    replace (t_offset ti + S index * k)%nat with (o + k)%nat by (unfold o; lia).
    replace (t_offset ti + (S index + length rest) * k)%nat
      with (o + k + length rest * k)%nat by (unfold o; lia).
    replace (t_offset ti + (index + S (length rest)) * k)%nat
      with (o + k + length rest * k)%nat by (unfold o; lia).
    rewrite fmap_app. unfold cells2.
    apply splice_twice; [done| |unfold o; nia].
    rewrite length_fmap. apply length_flat_map_const.
    eapply Forall_impl; [exact Hrest_all|]. by intros e (? & _).
Qed.

(** On a well-formed brace literal and a view of its sizes, [fill_tensor]
    writes the scalars of the literal, in order, into the cells of the view
    and leaves the other cells of the storage as they were. *)
Lemma fill_tensor_writes c :
  well_formed c = true -> brace_literal c = true ->
  forall ti st cells,
    t_sizes ti = sizes c ->
    heap st !! t_storage ti = Some cells ->
    (t_offset ti + numel (sizes c) <= length cells)%nat ->
    exists st',
      fill_tensor c (Some ti) st = (st', Ok ())
      /\ heap st' !! t_storage ti
         = Some (take (t_offset ti) cells
                 ++ (Some <$> leaves c)
                 ++ drop (t_offset ti + numel (sizes c)) cells).
Proof.
  induction c as [szs kind ty s children t0 IH] using TensorDataContainer_ind.
  intros Hwf Hlit ti st cells Hsz Hcells Hbound.
  set (c := mkTensorDataContainer szs kind ty s children t0) in *.
  unfold sizes in Hsz, Hbound. simpl in Hsz, Hbound.
  destruct ty; [| |done].
  - simpl in Hwf. apply bool_decide_eq_true_1 in Hwf. subst szs.
    rewrite (fill_tensor_scalar c (Some ti) eq_refl). rewrite bind_run.
    change (lift (Tensor_dim (Some ti)) st)
      with (st, Ok (Z.of_nat (length (t_sizes ti)))).
    cbv beta iota. rewrite Hsz. rewrite bind_run.
    unfold lift at 1, TORCH_INTERNAL_ASSERT. simpl bool_decide. cbv beta iota.
    rewrite fill_under_guard. eexists. split; [reflexivity|].
    simpl heap. rewrite list_lookup_alter_eq, Hcells, Hsz. simpl.
    change (numel []) with 1%nat in *.
    by rewrite fill_cells_one by lia.
  - rewrite (fill_tensor_init_list c (Some ti) st eq_refl).
    rewrite bind_run. unfold lift at 1.
    destruct children as [|first_elem rest].
    + simpl in Hwf. apply bool_decide_eq_true_1 in Hwf. subst szs.
      rewrite (Tensor_size0_cons _ _ _ Hsz). rewrite bind_run.
      eexists. split; [reflexivity|]. simpl.
      change (numel [0]) with 0%nat. rewrite Nat.add_0_r.
      by rewrite take_drop.
    + apply well_formed_init_list_inv in Hwf as [-> Hall].
      rewrite (Tensor_size0_cons _ _ _ Hsz). rewrite bind_run.
      unfold lift at 1, TORCH_INTERNAL_ASSERT.
      change (init_list_ c) with (first_elem :: rest).
      rewrite bool_decide_eq_true_2 by done.
      rewrite numel_cons in Hbound.
      change (forallb brace_literal (first_elem :: rest) = true) in Hlit.
      rewrite forallb_forall in Hlit.
      assert (Forall (fun elem =>
                length (leaves elem) = numel (sizes first_elem)
                /\ sizes elem = sizes first_elem
                /\ forall ti' st cells,
                     t_sizes ti' = sizes elem ->
                     heap st !! t_storage ti' = Some cells ->
                     (t_offset ti' + numel (sizes elem) <= length cells)%nat ->
                     exists st',
                       fill_tensor elem (Some ti') st = (st', Ok ())
                       /\ heap st' !! t_storage ti'
                          = Some (take (t_offset ti') cells
                                  ++ (Some <$> leaves elem)
                                  ++ drop (t_offset ti' + numel (sizes elem)) cells))
                (first_elem :: rest)) as Helems.
      { rewrite Forall_forall in IH, Hall. apply Forall_forall.
        intros elem Hin. destruct (Hall elem Hin) as [Hs Hwf].
        assert (brace_literal elem = true) as Hl
          by (apply Hlit; by apply list_elem_of_In).
        split; [rewrite <- Hs; by apply length_leaves|]. split; [done|].
        intros ti' st0 cells0. by apply IH. }
      destruct (fill_elems_writes ti (length (first_elem :: rest))
                  (sizes first_elem) (numel (sizes first_elem))
                  (first_elem :: rest) Hsz eq_refl Helems 0%nat st cells Hcells)
        as (st' & Hrun & Hheap); [simpl; lia|simpl in *; lia|].
      exists st'. split; [exact Hrun|].
      change (sizes c)
        with (Z.of_nat (length (first_elem :: rest)) :: sizes first_elem).
      change (leaves c) with (flat_map leaves (first_elem :: rest)).
      rewrite Hheap, numel_cons.
      by rewrite Nat.mul_0_l, Nat.add_0_r, Nat.add_0_l.
Qed.

Lemma lookup_new_storage (heap0 : list (list (option c10_Scalar))) cells :
  (heap0 ++ [cells]) !! length heap0 = Some cells.
Proof. rewrite lookup_app_r by done. by rewrite Nat.sub_diag. Qed.

(** A transfer that keeps the dtype returns a tensor that looks at the same
    cells. *)
Lemma Tensor_to_cells ti d st :
  exists st' ti',
    Tensor_to (Some ti) d (t_dtype ti) st = (st', Ok (Some ti'))
    /\ tensor_cells st' (Some ti') = tensor_cells st (Some ti)
    /\ t_sizes ti' = t_sizes ti.
Proof.
  unfold Tensor_to. rewrite bind_run. simpl.
  destruct (bool_decide (t_device ti = d)
            && bool_decide (t_dtype ti = t_dtype ti)).
  - by eexists _, _.
  - eexists _, _. split; [reflexivity|]. split; [|done].
    unfold tensor_cells. simpl. rewrite lookup_new_storage. simpl.
    rewrite drop_0, take_take. by rewrite Nat.min_id.
Qed.

(** X5.  Materializing a well-formed brace literal returns a tensor of the
    literal's sizes whose cells hold the scalars of the literal in
    row-major order, whatever the target device and dtype. *)
Theorem materialized_cells_are_the_leaves c options st :
  well_formed c = true -> brace_literal c = true ->
  exists ti,
    (convert_to_tensor c options st).2 = Ok (Some ti)
    /\ t_sizes ti = sizes c
    /\ tensor_cells (convert_to_tensor c options st).1 (Some ti)
       = Some <$> leaves c.
Proof.
  intros Hwf Hlit.
  destruct (type_cases c) as [(H & _)|[(_ & H & _)|(_ & _ & H)]].
  - rewrite (convert_scalar c options H).
    destruct c as [szs kind ty s children t0]. unfold is_scalar in H.
    apply bool_decide_eq_true_1 in H. simpl in H. subst ty.
    simpl in Hwf. apply bool_decide_eq_true_1 in Hwf. subst szs.
    eexists. split; [reflexivity|]. split; [reflexivity|].
    unfold tensor_cells. simpl. by rewrite lookup_new_storage.
  - rewrite (convert_init_list c options H).
    rewrite bind_run, empty_under_guard. rewrite bind_run.
    match goal with |- context [fill_tensor c (Some ?x0) ?x1] =>
      set (tensor0 := x0); set (st1 := x1) end.
    destruct (fill_tensor_writes c Hwf Hlit tensor0 st1
                (replicate (numel (sizes c)) None))
      as (st2 & Hfill & Hheap2).
    + reflexivity.
    + apply lookup_new_storage.
    + simpl. by rewrite length_replicate.
    + rewrite Hfill. cbv beta iota. rewrite Tensor_to_device_Some.
      destruct (Tensor_to_cells tensor0 (opt_device options) st2)
        as (st3 & ti' & Hto & Hcells & Hsz).
      rewrite Hto. exists ti'. split; [done|]. split; [done|].
      simpl fst. rewrite Hcells. unfold tensor_cells.
      change (t_storage tensor0) with (length (heap st)) in *.
      simpl in Hheap2. rewrite Hheap2. simpl.
      rewrite drop_replicate, Nat.sub_diag. simpl. rewrite app_nil_r.
      apply take_ge. rewrite length_fmap. by rewrite (length_leaves c).
  - destruct c as [szs kind ty s children t0]. unfold is_tensor in H.
    apply bool_decide_eq_true_1 in H. simpl in H. by subst ty.
Qed.

Lemma materialized_cells_are_the_leaves_witness :
  exists ti,
    (convert_to_tensor two_by_two (options_on kCUDA) Backend_initial).2
    = Ok (Some ti)
    /\ t_sizes ti = [2; 2]
    /\ tensor_cells
         (convert_to_tensor two_by_two (options_on kCUDA) Backend_initial).1
         (Some ti)
       = [Some (HAS_i 1); Some (HAS_i 2); Some (HAS_i 3); Some (HAS_i 4)].
Proof.
  apply (materialized_cells_are_the_leaves two_by_two (options_on kCUDA)
           Backend_initial); reflexivity.
Defined.

(** ** Flat sequences *)

(** The run of the flat-sequence constructor. *)
Lemma ArrayRef_run S (values : list (cpp_type S)) st :
  TensorDataContainer_ArrayRef S values st =
  (mkBackend (heap st ++ [Some <$> (to_Scalar <$> values)])
     (non_variable_type_mode st) (grad_mode st)
     (calls st ++ [mkEvent tensor_call kCPU true (grad_mode st)]),
   Ok (mkTensorDataContainer [Z.of_nat (length values)] S
         TensorDataContainerType.Tensor Scalar_default []
         (Some (mkTensorImpl (length (heap st)) 0
                  [Z.of_nat (length (to_Scalar <$> values))]
                  kFloat kCPU false)))).
Proof. reflexivity. Qed.

(** ** Brace lists that hold a flat sequence *)

Lemma fill_elems_throws ti n tail elems e :
  t_sizes ti = Z.of_nat n :: tail ->
  Forall (fun elem =>
            sizes elem = tail /\ well_formed elem = true
            /\ (brace_literal elem = false ->
                forall ti' st, t_sizes ti' = sizes elem ->
                  (fill_tensor elem (Some ti') st).2 = Throw e)) elems ->
  forallb brace_literal elems = false ->
  forall index st, (index + length elems <= n)%nat ->
    (fill_elems (Some ti) elems index st).2 = Throw e.
Proof.
  intros Hsz.
  induction 1 as [|elem rest (Htail & Hwf & Helem) _ IH]; [done|].
  intros Hlit index st Hn. simpl in Hlit, Hn. simpl fill_elems.
  rewrite bind_run, (Tensor_index_run ti _ _ index st Hsz) by lia.
  rewrite bind_run.
  match goal with |- context [fill_tensor elem (Some ?x0) ?x1] =>
    set (sub := x0); set (st1 := x1) end.
  destruct (brace_literal elem) eqn:Hl.
  - destruct (fill_tensor_returns elem Hwf Hl sub st1) as [st2 Hfill];
      [by rewrite Htail|].
    rewrite Hfill. apply IH; [done|lia].
  - pose proof (Helem eq_refl sub st1) as Hthrow.
    destruct (fill_tensor elem (Some sub) st1) as [st2 r].
    simpl in Hthrow. rewrite Hthrow by by rewrite Htail. done.
Qed.

Lemma fill_tensor_throws_on_flat c :
  well_formed c = true -> brace_literal c = false ->
  forall ti st, t_sizes ti = sizes c ->
    (fill_tensor c (Some ti) st).2
    = Throw (InternalAssert
               "TensorDataContainer is already a Tensor type, `fill_tensor` should not be called").
Proof.
  induction c as [szs kind ty s children t0 IH] using TensorDataContainer_ind.
  intros Hwf Hlit ti st Hsz.
  set (c := mkTensorDataContainer szs kind ty s children t0) in *.
  unfold sizes in Hsz. simpl in Hsz.
  destruct ty; [done| |].
  - rewrite (fill_tensor_init_list c (Some ti) st eq_refl).
    destruct children as [|first_elem rest]; [done|].
    apply well_formed_init_list_inv in Hwf as [-> Hall].
    rewrite bind_run. unfold lift at 1.
    rewrite (Tensor_size0_cons _ _ _ Hsz). rewrite bind_run.
    unfold lift at 1, TORCH_INTERNAL_ASSERT.
    change (init_list_ c) with (first_elem :: rest).
    rewrite bool_decide_eq_true_2 by done.
    apply (fill_elems_throws ti (length (first_elem :: rest)) (sizes first_elem));
      [done| |exact Hlit|simpl; lia].
    rewrite Forall_forall in IH, Hall. apply Forall_forall.
    intros elem Hin. destruct (Hall elem Hin) as [Hs Hwf].
    split; [done|]. split; [done|].
    intros Hl ti' st0. by apply IH.
  - by rewrite (fill_tensor_tensor c (Some ti) eq_refl).
Qed.

(** X7.  A well-formed brace list that holds a container of [Tensor] type
    at any depth is never materialized: whatever the options,
    [convert_to_tensor] allocates, fills up to the first such container and
    throws the internal assertion of [fill_tensor]; no transfer is made. *)
Theorem braces_holding_flat_never_materialize c options st :
  well_formed c = true -> is_init_list c = true -> brace_literal c = false ->
  (convert_to_tensor c options st).2
  = Throw (InternalAssert
             "TensorDataContainer is already a Tensor type, `fill_tensor` should not be called")
  /\ count_calls to_call
       (drop (length (calls st)) (calls (convert_to_tensor c options st).1))
     = 0%nat.
Proof.
  intros Hwf H Hlit. rewrite (convert_init_list c options H).
  rewrite bind_run, empty_under_guard. rewrite bind_run.
  match goal with |- context [fill_tensor c (Some ?x0) ?x1] =>
    set (tensor0 := x0); set (st1 := x1) end.
  pose proof (fill_tensor_throws_on_flat c Hwf Hlit tensor0 st1 eq_refl) as Hthrow.
  pose proof (logs_fill_tensor c (Some tensor0) st1) as Hlog.
  destruct (fill_tensor c (Some tensor0) st1) as [st2 r].
  simpl in Hthrow. subst r. split; [done|].
  destruct Hlog as (_ & _ & new & Hcalls & Hnew). simpl in Hcalls.
  simpl fst. rewrite Hcalls, <- app_assoc.
  rewrite drop_app_length. apply count_calls_none.
  constructor; [done|].
  eapply Forall_impl; [exact Hnew|].
  intros e (_ & _ & [[Hc _]|[Hc _]]); by rewrite Hc.
Qed.

Lemma braces_holding_flat_never_materialize_witness :
  let c := braces [returned TensorDataContainer_default flat_bools_run;
                   returned TensorDataContainer_default flat_bools_run] in
  (convert_to_tensor c (options_on kCUDA) flat_bools_run.1).2
  = Throw (InternalAssert
             "TensorDataContainer is already a Tensor type, `fill_tensor` should not be called")
  /\ count_calls to_call
       (drop (length (calls flat_bools_run.1))
          (calls (convert_to_tensor c (options_on kCUDA) flat_bools_run.1).1))
     = 0%nat.
Proof.
  apply (braces_holding_flat_never_materialize
           (braces [returned TensorDataContainer_default flat_bools_run;
                    returned TensorDataContainer_default flat_bools_run])
           (options_on kCUDA) flat_bools_run.1); reflexivity.
Defined.

(** ** Printing whole literals *)

(** Every kind but [Undefined] is dispatched to the formatter. *)
Lemma print_as_dispatched format name ty s stream :
  ty <> Undefined ->
  print_as format name ty (Ok s) stream =
  match format ty s with
  | Ok text => (stream +:+ text, Ok ())
  | Throw e => (stream, Throw e)
  | UndefinedBehavior => (stream, UndefinedBehavior)
  end.
Proof.
  intros Hty. unfold print_as.
  destruct ty; try done; simpl; rewrite !bind_run; unfold lift at 1;
    rewrite bind_run; unfold lift at 1;
    by destruct (format _ s).
Qed.

(** X8.  Every scalar literal can be printed: for each kind that has a
    scalar constructor the printer reaches the formatter (it never throws
    its "not implemented" error), writes exactly the formatter's text, and
    writes nothing when the formatter throws. *)
Theorem scalar_literals_reach_the_formatter format st S (v : cpp_type S) stream :
  pretty_print_recursive format st (TensorDataContainer_value S v) stream =
  match format S (to_Scalar v) with
  | Ok text => (stream +:+ text, Ok ())
  | Throw e => (stream, Throw e)
  | UndefinedBehavior => (stream, UndefinedBehavior)
  end.
Proof.
  assert (S <> Undefined) as HS by (intros ->; destruct v).
  change (pretty_print_recursive format st (TensorDataContainer_value S v) stream)
    with (print_as format "TensorDataContainer_pretty_print_scalar" S
            (Ok (to_Scalar v)) stream).
  by apply print_as_dispatched.
Qed.

Lemma rendering_init_list format szs kind s children t :
  rendering format
    (mkTensorDataContainer szs kind TensorDataContainerType.InitList s children t)
  = comma_separated <$> renderings format children.
Proof.
  simpl. f_equal.
  induction children as [|elem rest IH]; [done|].
  simpl. by rewrite IH.
Qed.

Lemma renderings_Forall2 format st children :
  Forall (fun c => forall text,
            rendering format c = Some text -> renders format st c text)
    children ->
  forall texts,
    renderings format children = Some texts ->
    Forall2 (renders format st) children texts.
Proof.
  induction 1 as [|elem rest Helem _ IH]; intros texts; simpl.
  - intros [= <-]. constructor.
  - destruct (rendering format elem) as [text|] eqn:Htext; [|done].
    destruct (renderings format rest) as [texts'|]; [|done].
    intros [= <-]. constructor; [by apply Helem | by apply IH].
Qed.

(** X9.  The printer agrees with the rendering computed from the literal:
    whenever a container has a rendering (a brace literal whose scalars the
    formatter accepts), printing it returns and appends exactly that text,
    nested braces and separators included. *)
Theorem printer_agrees_with_rendering format st c text :
  rendering format c = Some text -> renders format st c text.
Proof.
  revert text.
  induction c as [szs kind ty s children t0 IH] using TensorDataContainer_ind.
  intros text. destruct ty; [| |done].
  - simpl. case_bool_decide as Hk; [done|].
    destruct (format kind s) as [text'| |] eqn:Hf; [|done..].
    intros [= <-] stream.
    change (print_as format "TensorDataContainer_pretty_print_scalar" kind
              (Ok s) stream = (stream +:+ text', Ok ())).
    rewrite print_as_dispatched by done. by rewrite Hf.
  - rewrite rendering_init_list.
    destruct (renderings format children) as [texts|] eqn:Htexts; [|done].
    intros [= <-] stream.
    pose proof (renderings_Forall2 format st children IH texts Htexts) as Hall.
    rewrite pretty_print_init_list by done.
    rewrite bind_run. unfold put at 1.
    rewrite bind_run. simpl init_list_.
    rewrite (print_elems_separated format st _ _ Hall).
    unfold comma_separated, put. by rewrite !append_assoc.
Qed.

Lemma printer_agrees_with_rendering_witness :
  renders format_integers Backend_initial two_by_two "{{1, 2}, {3, 4}}".
Proof.
  apply (printer_agrees_with_rendering format_integers Backend_initial
           two_by_two "{{1, 2}, {3, 4}}").
  reflexivity.
Defined.

(** What was written stays written. *)
Lemma appends_bind {A B} (m : StateOutcome ostream A)
    (f : A -> StateOutcome ostream B) :
  (forall stream, exists text, (m stream).1 = stream +:+ text) ->
  (forall a stream, exists text, (f a stream).1 = stream +:+ text) ->
  forall stream, exists text, ((m ≫= f) stream).1 = stream +:+ text.
Proof.
  intros Hm Hf stream. rewrite bind_run.
  destruct (Hm stream) as [text1 H1].
  destruct (m stream) as [stream1 [a| |]]; simpl in H1; subst stream1;
    [|by exists text1..].
  destruct (Hf a (stream +:+ text1)) as [text2 H2].
  exists (text1 +:+ text2). by rewrite H2, append_assoc.
Qed.

Lemma appends_put text0 :
  forall stream, exists text, (put text0 stream).1 = stream +:+ text.
Proof. intros stream. by exists text0. Qed.

Lemma appends_lift {A} (o : outcome A) :
  forall stream : ostream, exists text, (lift o stream).1 = stream +:+ text.
Proof. intros stream. exists "". by rewrite append_empty_r. Qed.

Lemma appends_ret {A} (a : A) :
  forall stream : ostream,
    exists text, ((mret a : StateOutcome ostream A) stream).1 = stream +:+ text.
Proof. intros stream. exists "". by rewrite append_empty_r. Qed.

Lemma appends_print_as format name ty read :
  forall stream, exists text,
    (print_as format name ty read stream).1 = stream +:+ text.
Proof.
  unfold print_as.
  assert (forall k stream, exists text,
            ((v ← lift read; text ← lift (format k v); put text) stream).1
            = stream +:+ text) as Hgo.
  { intros k. apply appends_bind; [apply (appends_lift read)|]. intros v.
    apply appends_bind; [apply (appends_lift (format k v))|]. intros text.
    apply appends_put. }
  destruct ty; simpl; try apply Hgo;
    apply (appends_lift (Throw (NotImplemented name Undefined) : outcome unit)).
Qed.

Lemma appends_print_items format st ty t n :
  forall i stream, exists text,
    (print_items format st ty t n i stream).1 = stream +:+ text.
Proof.
  induction n as [|n IH]; intros i; simpl; [apply (appends_ret ())|].
  apply appends_bind; [apply appends_print_as|]. intros _. apply IH.
Qed.

Lemma appends_print_elems format st elems :
  Forall (fun c => forall stream, exists text,
            (pretty_print_recursive format st c stream).1 = stream +:+ text)
    elems ->
  forall stream, exists text,
    (print_elems format st elems stream).1 = stream +:+ text.
Proof.
  induction 1 as [|elem rest Helem _ IH]; simpl; [apply (appends_ret ())|].
  apply appends_bind; [exact Helem|]. intros _.
  apply appends_bind; [|intros _; exact IH].
  destruct rest; [apply (appends_ret ()) | apply appends_put].
Qed.

(** X10.  The printer only appends: whatever the container, the backend
    state and the formatter, and whether printing returns or throws half
    way, the stream afterwards is the stream before followed by some text. *)
Theorem printer_only_appends format st c stream :
  exists text,
    (pretty_print_recursive format st c stream).1 = stream +:+ text.
Proof.
  revert stream.
  induction c as [szs kind ty s children t0 IH] using TensorDataContainer_ind.
  set (c := mkTensorDataContainer szs kind ty s children t0).
  intros stream. destruct ty.
  - apply appends_print_as.
  - rewrite (pretty_print_init_list format st c stream eq_refl).
    revert stream. apply appends_bind; [apply appends_put|]. intros _.
    apply appends_bind; [|intros _; apply appends_put].
    by apply appends_print_elems.
  - rewrite (pretty_print_tensor format st c stream eq_refl).
    revert stream. apply appends_bind; [apply appends_put|]. intros _.
    apply appends_bind; [apply (appends_lift (Tensor_size0 (tensor_ c)))|].
    intros n.
    apply appends_bind; [apply appends_print_items|]. intros _.
    apply appends_put.
Qed.

(** ** Storages that already exist *)

Lemma same_outside_refl sid st : same_outside sid st st.
Proof. by split. Qed.

Lemma same_outside_trans sid st1 st2 st3 :
  same_outside sid st1 st2 -> same_outside sid st2 st3 ->
  same_outside sid st1 st3.
Proof.
  intros [Hl1 H1] [Hl2 H2]. split; [congruence|].
  intros j Hj. by rewrite H2, H1.
Qed.

Lemma fill_elems_same_outside ti elems :
  Forall (fun elem => forall ti' st,
            same_outside (t_storage ti') st (fill_tensor elem (Some ti') st).1)
    elems ->
  forall index st,
    same_outside (t_storage ti) st (fill_elems (Some ti) elems index st).1.
Proof.
  induction 1 as [|elem rest Helem _ IH]; intros index st; simpl.
  - apply same_outside_refl.
  - rewrite bind_run.
    destruct (Tensor_index (Some ti) index st) as [st1 [sub| |]] eqn:Hidx.
    + apply Tensor_index_Ok in Hidx
        as (ti0 & n & tail & [= <-] & _ & _ & -> & Hheap & _).
      rewrite bind_run.
      match goal with |- context [fill_tensor elem (Some ?x0) st1] =>
        set (view := x0) end.
      pose proof (Helem view st1) as Hfill.
      assert (same_outside (t_storage ti) st st1) as H1
        by (split; by rewrite Hheap).
      destruct (fill_tensor elem (Some view) st1) as [st2 [[]| |]];
        simpl in Hfill;
        try (eapply same_outside_trans; [exact H1|exact Hfill]).
      eapply same_outside_trans; [exact H1|].
      eapply same_outside_trans; [exact Hfill|]. apply IH.
    + unfold Tensor_index in Hidx. rewrite bind_run in Hidx.
      unfold lift at 1 in Hidx.
      destruct (Tensor_select (Some ti) index); simplify_eq/=.
      apply same_outside_refl.
    + unfold Tensor_index in Hidx. rewrite bind_run in Hidx.
      unfold lift at 1 in Hidx.
      destruct (Tensor_select (Some ti) index); simplify_eq/=.
      apply same_outside_refl.
Qed.

(** Whatever the container, [fill_tensor] changes no storage but the one of
    the tensor it was given. *)
Lemma fill_tensor_same_outside c :
  forall ti st,
    same_outside (t_storage ti) st (fill_tensor c (Some ti) st).1.
Proof.
  induction c as [szs kind ty s children t0 IH] using TensorDataContainer_ind.
  intros ti st. set (c := mkTensorDataContainer szs kind ty s children t0).
  destruct ty.
  - rewrite (fill_tensor_scalar c (Some ti) eq_refl). rewrite bind_run.
    change (lift (Tensor_dim (Some ti)) st)
      with (st, Ok (Z.of_nat (length (t_sizes ti)))).
    cbv beta iota. rewrite bind_run. unfold lift at 1, TORCH_INTERNAL_ASSERT.
    destruct (bool_decide _); [|apply same_outside_refl].
    rewrite fill_under_guard. split; simpl.
    + apply length_alter.
    + intros j Hj. by apply list_lookup_alter_ne.
  - rewrite (fill_tensor_init_list c (Some ti) st eq_refl). rewrite bind_run.
    unfold lift at 1.
    destruct (Tensor_size0 (Some ti)) as [n| |]; [|apply same_outside_refl..].
    rewrite bind_run. unfold lift at 1, TORCH_INTERNAL_ASSERT.
    destruct (bool_decide _); [|apply same_outside_refl].
    by apply fill_elems_same_outside.
  - rewrite (fill_tensor_tensor c (Some ti) eq_refl). apply same_outside_refl.
Qed.

Lemma same_outside_new_storage heap0 cells st1 st2 :
  heap st1 = heap0 ++ [cells] ->
  same_outside (length heap0) st1 st2 ->
  heap0 `prefix_of` heap st2.
Proof.
  intros Hheap [Hlen Hsame].
  exists (drop (length heap0) (heap st2)).
  rewrite <- (take_drop (length heap0) (heap st2)) at 1. f_equal.
  apply list_eq. intros i. rewrite lookup_take. case_decide as Hi.
  - rewrite Hsame by lia. rewrite Hheap. by rewrite lookup_app_l.
  - symmetry. apply lookup_ge_None. lia.
Qed.

Lemma Tensor_to_grows t d dtype st :
  heap st `prefix_of` heap (Tensor_to t d dtype st).1.
Proof.
  destruct t as [ti|]; [|done]. unfold Tensor_to. rewrite bind_run. simpl.
  destruct (_ && _); [done|]. simpl. by apply prefix_app_r.
Qed.

(** X12.  Materializing never touches the tensors that already exist:
    whatever the container and the options, and whether the call returns or
    throws, the storages of the backend before the call are unchanged after
    it (new ones may follow them).  The same holds for building a container
    from a flat sequence. *)
Theorem existing_storages_are_untouched :
  (forall c options st,
     heap st `prefix_of` heap (convert_to_tensor c options st).1)
  /\ (forall S (values : list (cpp_type S)) st,
        heap st `prefix_of` heap (TensorDataContainer_ArrayRef S values st).1).
Proof.
  split.
  - intros c options st.
    destruct (type_cases c) as [(H & _)|[(_ & H & _)|(_ & _ & H)]].
    + rewrite (convert_scalar c options H). simpl. by apply prefix_app_r.
    + rewrite (convert_init_list c options H).
      rewrite bind_run, empty_under_guard. rewrite bind_run.
      match goal with |- context [fill_tensor c (Some ?x0) ?x1] =>
        set (tensor0 := x0); set (st1 := x1) end.
      pose proof (fill_tensor_same_outside c tensor0 st1) as Hfill.
      apply (same_outside_new_storage (heap st)
               (replicate (numel (sizes_ c)) None) st1) in Hfill; [|done].
      destruct (fill_tensor c (Some tensor0) st1) as [st2 [[]| |]];
        simpl in Hfill; [|done..].
      etrans; [exact Hfill|]. rewrite Tensor_to_device_Some.
      apply Tensor_to_grows.
    + rewrite (convert_tensor c options H). apply Tensor_to_grows.
  - intros S values st. rewrite ArrayRef_run. simpl. by apply prefix_app_r.
Qed.

(** ** Reading a brace list back *)

(** X13.  Round trip of a brace list: a container the list constructor
    returns is of [InitList] type only, [init_list()] gives back exactly
    the children it was built from, in order, and [scalar()] and [tensor()]
    throw their usage errors on it. *)
Theorem brace_list_round_trip children c :
  TensorDataContainer_init_list children = Ok c ->
  init_list c = Ok children
  /\ (exists msg, scalar c = Throw (Misuse msg))
  /\ (exists msg, tensor c = Throw (Misuse msg))
  /\ length children = Z.to_nat (hd 0 (sizes c)).
Proof.
  destruct children as [|first_elem rest]; [discriminate|].
  rewrite init_list_unfold.
  destruct (check_sub_lists first_elem (first_elem :: rest)) as [[]| |];
    [|discriminate..].
  intros [= <-]. split; [done|]. split; [by eexists|]. split; [by eexists|].
  simpl hd. by rewrite Nat2Z.id.
Qed.

Lemma brace_list_round_trip_witness :
  init_list (braces [literal_int 1; literal_int 2])
  = Ok [literal_int 1; literal_int 2]
  /\ (exists msg, scalar (braces [literal_int 1; literal_int 2]) = Throw (Misuse msg))
  /\ (exists msg, tensor (braces [literal_int 1; literal_int 2]) = Throw (Misuse msg))
  /\ length [literal_int 1; literal_int 2]
     = Z.to_nat (hd 0 (sizes (braces [literal_int 1; literal_int 2]))).
Proof.
  apply (brace_list_round_trip [literal_int 1; literal_int 2]
           (braces [literal_int 1; literal_int 2])).
  reflexivity.
Defined.
